(** * Wasabi upload bot: a shallow embedding of [bot.py] and [config.py]

    The development follows the source file by file and function by
    function.  Python values are represented as follows.

    - [str] is a list of Unicode code points ([list N]); [py "abc"] turns a
      literal into one.
    - [int] is [Z]; [float] is an exact rational [Q].  The clock readings of
      [time.time()] are doubles; differences of two epoch readings and
      divisions by a power of 1024 are exact on doubles, so the comparisons
      made by the code agree with the ones made here.
    - [dict] is a [gmap]; the set of paths that exist on the local disk is a
      [gset].
    - exceptions are values of [exception] (the subclasses of [Exception])
      or of [raised] (which adds the [BaseException]s the code meets). *)

From Stdlib Require Import ZArith QArith Qround Qabs Lia List String Ascii.
From Stdlib Require Import Decimal DecimalZ.
From stdpp Require Import gmap list.

Set Default Proof Using "Type".
Local Open Scope Z_scope.

(** ** Python strings *)

Abbreviation str := (list N).

Definition py (s : string) : str :=
  map N_of_ascii (list_ascii_of_string s).

Definition SLASH : N := 47.
Definition BACKSLASH : N := 92.
Definition DOT : N := 46.
Definition SPACE : N := 32.
Definition UNDERSCORE : N := 95.
Definition MINUS : N := 45.

(** [str(n)] for an [int]: the decimal digits, with a leading minus sign for
    negative numbers. *)
Fixpoint digits (u : Decimal.uint) : str :=
  match u with
  | Nil => []
  | D0 u => 48%N :: digits u
  | D1 u => 49%N :: digits u
  | D2 u => 50%N :: digits u
  | D3 u => 51%N :: digits u
  | D4 u => 52%N :: digits u
  | D5 u => 53%N :: digits u
  | D6 u => 54%N :: digits u
  | D7 u => 55%N :: digits u
  | D8 u => 56%N :: digits u
  | D9 u => 57%N :: digits u
  end.

Definition str_of_int (z : Z) : str :=
  match Z.to_int z with
  | Decimal.Pos u => digits u
  | Decimal.Neg u => MINUS :: digits u
  end.

(** [int(x)] for a [float]: truncation towards zero. *)
Definition int_of_float (x : Q) : Z := Z.quot (Qnum x) (Z.pos (Qden x)).

(** [s.rfind(c)]: the highest index of [c] in [s], [-1] when absent. *)
Fixpoint rfind_from (c : N) (s : str) (i : Z) (found : Z) : Z :=
  match s with
  | [] => found
  | x :: s' => rfind_from c s' (i + 1) (if N.eqb x c then i else found)
  end.

Definition rfind (c : N) (s : str) : Z := rfind_from c s 0 (-1).

(** [s[a:b]] for [0 <= a]. *)
Definition slice (s : str) (a b : Z) : str :=
  take (Z.to_nat (b - a)) (drop (Z.to_nat a) s).

(** ** Exceptions *)

(** The subclasses of [Exception] that the code raises or receives from its
    collaborators. *)
Inductive exception :=
| ValueError (msg : str)
| NameError (name : string)
| AttributeError (msg : string)
| IndexError
| KeyError
| OSError
| FloodWait (value : Z)
| RPCError
| ClientError.

(** What can propagate out of a call: an [Exception], or one of the
    [BaseException]s that [except Exception] does not catch. *)
Inductive raised :=
| Exc (e : exception)
| CancelledError
| KeyboardInterrupt.

Inductive result (A : Type) :=
| Returns (a : A)
| Raises (e : raised).
Arguments Returns {A} a.
Arguments Raises {A} e.

(** ** [sanitize_filename] (bot.py, lines 88-107) *)

(** [p.split('/')]. *)
Fixpoint split_on (sep : N) (s : str) : list str :=
  match s with
  | [] => [[]]
  | c :: s' =>
      if N.eqb c sep then [] :: split_on sep s'
      else match split_on sep s' with
           | [] => [[c]]
           | p :: ps => (c :: p) :: ps
           end
  end.

Definition str_eqb (a b : str) : bool := bool_decide (a = b).

(** [Path(filename).name] on a POSIX host: the last path component that is
    neither empty nor [.], the empty string when there is none. *)
Definition Path_name (filename : str) : str :=
  let parts :=
    filter (fun p => negb (str_eqb p []) && negb (str_eqb p [DOT]) = true)
           (split_on SLASH filename) in
  default [] (last parts).

Section Sanitizer.

(** The Unicode table behind [\w] for code points outside ASCII is not part
    of the program; it is a parameter. *)
Variable unicode_word : N -> bool.

(** [\w] of a [str] pattern: letters, digits and the underscore. *)
Definition re_word (c : N) : bool :=
  if (c <? 128)%N then
    ((48 <=? c) && (c <=? 57) || (65 <=? c) && (c <=? 90)
     || (97 <=? c) && (c <=? 122) || (c =? UNDERSCORE))%N
  else unicode_word c.

(** The characters kept by [re.sub(r'[^\w\-.@() ]', '', filename)]. *)
Definition safe_char (c : N) : bool :=
  re_word c
  || (c =? MINUS)%N || (c =? DOT)%N || (c =? 64)%N
  || (c =? 40)%N || (c =? 41)%N || (c =? SPACE)%N.

(** [os.path.splitext] ([genericpath._splitext] with [sep = '/'] and no
    [altsep]). *)
Definition splitext (p : str) : str * str :=
  let sepIndex := rfind SLASH p in
  let dotIndex := rfind DOT p in
  if (sepIndex <? dotIndex)
     && existsb (fun c => negb (c =? DOT)%N) (slice p (sepIndex + 1) dotIndex)
  then (take (Z.to_nat dotIndex) p, drop (Z.to_nat dotIndex) p)
  else (p, []).

(** [t] is the reading of [time.time()] used by the fall-back name. *)
Definition sanitize_filename (t : Q) (filename : str) : str :=
  let fallback := py "file_" ++ str_of_int (int_of_float t) in
  match filename with
  | [] => fallback
  | _ =>
      let filename := Path_name filename in
      let safe_chars := filter (fun c => safe_char c = true) filename in
      let safe_chars :=
        map (fun c => if (c =? SPACE)%N then UNDERSCORE else c) safe_chars in
      let safe_chars :=
        if (255 <? Z.of_nat (length safe_chars)) then
          let '(name, ext) := splitext safe_chars in
          take 250 name ++ ext
        else safe_chars in
      match safe_chars with
      | [] => fallback
      | _ => safe_chars
      end
  end.

End Sanitizer.

(** ** [human_size] (bot.py, lines 109-118) *)

Definition size_name : list str :=
  [py "B"; py "KB"; py "MB"; py "GB"; py "TB"; py "PB"].

(** [int(math.floor(math.log(x, 1024)))] for [0 < x], computed exactly. *)
Definition floor_log_1024 (x : Q) : Z :=
  if Qle_bool 1 x then Z.log2 (Qfloor x) / 10
  else - ((Z.log2_up (Qceiling (/ x)) + 9) / 10).

(** [round(x, 2)] counted in hundredths: the nearest one, ties to even. *)
Definition round_half_even (x : Q) : Z :=
  let f := Qfloor x in
  match Qcompare (x - inject_Z f) (1 # 2) with
  | Lt => f
  | Gt => f + 1
  | Eq => if Z.even f then f else f + 1
  end.

(** [repr] of a float that is a whole number [n] of hundredths: the decimal
    expansion without trailing zeros, with at least one decimal. *)
Definition repr_hundredths (n : Z) : str :=
  let a := Z.abs n in
  let fr := a mod 100 in
  (if n <? 0 then [MINUS] else [])
  ++ str_of_int (a / 100) ++ [DOT]
  ++ (if fr mod 10 =? 0 then str_of_int (fr / 10)
      else str_of_int (fr / 10) ++ str_of_int (fr mod 10)).

(** [seq[i]] with Python's negative indices. *)
Definition py_index {A} (l : list A) (i : Z) : option A :=
  let n := Z.of_nat (length l) in
  if (0 <=? i) then l !! Z.to_nat i
  else if (0 <=? n + i) then l !! Z.to_nat (n + i)
  else None.

Definition human_size (size_bytes : Q) : result str :=
  if Qeq_bool size_bytes 0 then Returns (py "0B")
  else if Qle_bool size_bytes 0 then
    (* math.log of a negative number *)
    Raises (Exc (ValueError (py "math domain error")))
  else
    let i := floor_log_1024 size_bytes in
    let p := Qpower 1024 i in
    let s := round_half_even (size_bytes / p * 100) in
    match py_index size_name i with
    | Some unit_name => Returns (repr_hundredths s ++ [SPACE] ++ unit_name)
    | None => Raises (Exc IndexError)
    end.

(** [f"{x:.1f}"]: one decimal, ties to even. *)
Definition format_1f (x : Q) : str :=
  let n := round_half_even (Qabs x * 10) in
  (if Qle_bool 0 x then [] else [MINUS])
  ++ str_of_int (n / 10) ++ [DOT] ++ str_of_int (n mod 10).

(** [os.path.join(a, b)] on a POSIX host. *)
Definition path_join (a b : str) : str :=
  match b with
  | c :: _ => if (c =? SLASH)%N then b
              else match last a with
                   | None => b
                   | Some d => if (d =? SLASH)%N then a ++ b else a ++ SLASH :: b
                   end
  | [] => match last a with
          | None => []
          | Some d => if (d =? SLASH)%N then a else a ++ [SLASH]
          end
  end.

(** ** config.py *)

Record Config := {
  API_ID : Z;
  API_HASH : str;
  BOT_TOKEN : str;
  WASABI_ACCESS_KEY : str;
  WASABI_SECRET_KEY : str;
  WASABI_BUCKET : str;
  WASABI_REGION : str;
  WASABI_ENDPOINT : str;
  MAX_FILE_SIZE : Z;
  URL_EXPIRY : Z;
  DOWNLOAD_DIR : str;
  MULTIPART_THRESHOLD : Z;
  MULTIPART_CHUNKSIZE : Z;
  MAX_CONCURRENCY : Z;
  PROGRESS_UPDATE_INTERVAL : Q;
  MAX_CONCURRENT_UPLOADS_PER_USER : Z;
  DAILY_UPLOAD_LIMIT : option Z;
  LOG_LEVEL : str;
  LOG_FILE : option str
}.

Section Configuration.

(** [int(s)] for a string read from the environment; [None] when Python
    raises [ValueError]. *)
Variable int_of_str : str -> option Z.

(** The class body of [Config], run when [config] is imported; [getenv] is
    [os.getenv] without its default. *)
Definition load_Config (getenv : string -> option str) : result Config :=
  let api_id :=
    match getenv "API_ID"%string with
    | None => Some 0
    | Some s => int_of_str s
    end in
  match api_id with
  | None => Raises (Exc (ValueError (py "invalid literal for int()")))
  | Some api_id =>
      let region := default (py "us-east-1") (getenv "WASABI_REGION"%string) in
      Returns {|
        API_ID := api_id;
        API_HASH := default [] (getenv "API_HASH"%string);
        BOT_TOKEN := default [] (getenv "BOT_TOKEN"%string);
        WASABI_ACCESS_KEY := default [] (getenv "WASABI_ACCESS_KEY"%string);
        WASABI_SECRET_KEY := default [] (getenv "WASABI_SECRET_KEY"%string);
        WASABI_BUCKET := default [] (getenv "WASABI_BUCKET"%string);
        WASABI_REGION := region;
        WASABI_ENDPOINT := py "https://s3." ++ region ++ py ".wasabisys.com";
        MAX_FILE_SIZE := 4 * 1024 * 1024 * 1024;
        URL_EXPIRY := 24 * 3600;
        DOWNLOAD_DIR := py "downloads";
        MULTIPART_THRESHOLD := 25 * 1024 * 1024;
        MULTIPART_CHUNKSIZE := 25 * 1024 * 1024;
        MAX_CONCURRENCY := 10;
        PROGRESS_UPDATE_INTERVAL := 3 # 2;
        MAX_CONCURRENT_UPLOADS_PER_USER := 1;
        DAILY_UPLOAD_LIMIT := None;
        LOG_LEVEL := default (py "INFO") (getenv "LOG_LEVEL"%string);
        LOG_FILE := getenv "LOG_FILE"%string
      |}
  end.

End Configuration.

(** ** Messages, status records and the state of the bot *)

Record Media := {
  file_name : option str;
  file_size : Z
}.

Record Message := {
  from_user : Z;       (* message.from_user.id *)
  chat : Z;            (* message.chat.id *)
  document : option Media;
  video : option Media;
  audio : option Media
}.

(** The dictionary stored in [user_status] (lines 289-296). *)
Record Status := {
  st_filename : str;
  st_file_path : str;
  st_progress : Q;
  st_speed : str;
  st_elapsed : Q;
  st_start_time : Q
}.

(** The bodies of the messages the bot sends, with the values that the
    f-strings interpolate. *)
Inductive text :=
| TxtStart
| TxtCancelled                     (* "Upload cancelled and cleaned up." *)
| TxtNothingToCancel               (* "No active upload to cancel." *)
| TxtStatus (filename progress speed elapsed : str)
| TxtNoActiveUploads
| TxtTooLarge (limit : str)        (* "File size exceeds ... limit." *)
| TxtAlreadyActive                 (* "You already have an upload in progress." *)
| TxtUploadFailed (e : exception)
| TxtDownloading
| TxtUploading
| TxtProgress (operation : str) (filled : Z) (percentage : str)
              (transferred total : str) (speed : str) (eta : Q)
| TxtComplete (filename size download_time upload_time speed url : str)
              (hours : Z)
| TxtError (e : exception).

Inductive log_entry :=
| LogConfigValidated
| LogProgressError (e : exception)
| LogCancelled (owner : Z)
| LogUploadError (e : exception)
| LogCompleted (owner : Z) (filename : str)
| LogProcessError (e : exception)
| LogStarting
| LogInterrupted
| LogFatal (e : exception).

(** What the bot has done, newest first. *)
Inductive event :=
| Sent (chat : Z) (t : text)             (* reply_text delivered *)
| Edited (chat : Z) (t : text)           (* edit_text delivered *)
| Logged (l : log_entry)
| Removed (path : str)                   (* os.remove *)
| TaskDeleted (owner : Z)                (* del self.user_tasks[owner] *)
| StatusDeleted (owner : Z)              (* del self.user_status[owner] *)
| TaskCancelRequested (task : nat)       (* task.cancel() *)
| MadeDirs (path : str)                  (* os.makedirs *)
| Uploaded (bucket key : str)            (* upload_file returned *)
| Presigned (bucket key : str) (expires : Z)
| BotRan.                                (* asyncio.run(bot.run()) was entered *)

Record World := {
  user_tasks : gmap Z nat;                (* owner -> task handle *)
  user_status : gmap Z Status;
  disk : gset str;                        (* the paths that exist *)
  objects : gset (str * str);             (* (bucket, key) in the store *)
  (* the attribute [last_update] of the function [progress_bar]; [None]
     while the function has no such attribute *)
  last_update_attr : option (gmap Z Q);
  tasks_created : nat;
  journal : list event
}.

Definition boot : World :=
  {| user_tasks := ∅; user_status := ∅; disk := ∅; objects := ∅;
     last_update_attr := None; tasks_created := 0; journal := [] |}.

Definition with_tasks (f : gmap Z nat -> gmap Z nat) (w : World) : World :=
  {| user_tasks := f (user_tasks w); user_status := user_status w;
     disk := disk w; objects := objects w;
     last_update_attr := last_update_attr w;
     tasks_created := tasks_created w; journal := journal w |}.

Definition with_status (f : gmap Z Status -> gmap Z Status) (w : World) : World :=
  {| user_tasks := user_tasks w; user_status := f (user_status w);
     disk := disk w; objects := objects w;
     last_update_attr := last_update_attr w;
     tasks_created := tasks_created w; journal := journal w |}.

Definition with_disk (f : gset str -> gset str) (w : World) : World :=
  {| user_tasks := user_tasks w; user_status := user_status w;
     disk := f (disk w); objects := objects w;
     last_update_attr := last_update_attr w;
     tasks_created := tasks_created w; journal := journal w |}.

Definition with_objects (f : gset (str * str) -> gset (str * str)) (w : World) : World :=
  {| user_tasks := user_tasks w; user_status := user_status w;
     disk := disk w; objects := f (objects w);
     last_update_attr := last_update_attr w;
     tasks_created := tasks_created w; journal := journal w |}.

Definition with_last_update (f : option (gmap Z Q) -> option (gmap Z Q)) (w : World) : World :=
  {| user_tasks := user_tasks w; user_status := user_status w;
     disk := disk w; objects := objects w;
     last_update_attr := f (last_update_attr w);
     tasks_created := tasks_created w; journal := journal w |}.

Definition with_created (f : nat -> nat) (w : World) : World :=
  {| user_tasks := user_tasks w; user_status := user_status w;
     disk := disk w; objects := objects w;
     last_update_attr := last_update_attr w;
     tasks_created := f (tasks_created w); journal := journal w |}.

Definition record (e : event) (w : World) : World :=
  {| user_tasks := user_tasks w; user_status := user_status w;
     disk := disk w; objects := objects w;
     last_update_attr := last_update_attr w;
     tasks_created := tasks_created w; journal := e :: journal w |}.

(** ** Coroutines

    A handler is a program over the state of the bot.  Its synchronous
    steps ([Act]) run to completion; at an [Await] the coroutine is
    suspended and other handlers may run.  Every call site is named by its
    line in bot.py, and the environment answers per call site. *)

(** How an awaited call ends: it returns, it raises, or the task is
    cancelled by [/cancel] while suspended there. *)
Inductive wake :=
| Woken
| Thrown (e : exception)
| Cancelled.

(** How a synchronous call to a collaborator ends. *)
Inductive answer :=
| Answer (v : str)
| Fails (e : exception).

(** [progress=self.progress_bar, progress_args=(status_msg, start, label)]. *)
Inductive callback :=
| ProgressBar (chat : Z) (start_time : Q) (operation : str).

Inductive acall :=
| reply_text (chat : Z) (t : text)
| edit_text (chat : Z) (t : text)
| download_media (file_name : str) (progress : callback)
| asyncio_sleep (seconds : Z)
| start_task (task : nat).

Inductive extcall :=
| os_makedirs (path : str)
| upload_file (file_path bucket key content_type original_filename
               telegram_user upload_timestamp : str)
| generate_presigned_url (bucket key disposition : str) (expires_in : Z).

Inductive prog (A : Type) : Type :=
| Ret (a : A)
| Raise (e : raised)
| Act {X : Type} (f : World -> World * X) (k : X -> prog A)
| TimeTime (line : nat) (k : Q -> prog A)
| LoadGlobal (name : string) (k : bool -> prog A)
| Ext (line : nat) (c : extcall) (k : answer -> prog A)
| Await (line : nat) (c : acall) (k : wake -> prog A)
| AsyncioRun (k : result unit -> prog A).
Arguments Ret {A} a.
Arguments Raise {A} e.
Arguments Act {A X} f k.
Arguments TimeTime {A} line k.
Arguments LoadGlobal {A} name k.
Arguments Ext {A} line c k.
Arguments Await {A} line c k.
Arguments AsyncioRun {A} k.

Fixpoint bind {A B} (p : prog A) (f : A -> prog B) : prog B :=
  match p with
  | Ret a => f a
  | Raise e => Raise e
  | Act g k => Act g (fun x => bind (k x) f)
  | TimeTime l k => TimeTime l (fun t => bind (k t) f)
  | LoadGlobal n k => LoadGlobal n (fun b => bind (k b) f)
  | Ext l c k => Ext l c (fun r => bind (k r) f)
  | Await l c k => Await l c (fun r => bind (k r) f)
  | AsyncioRun k => AsyncioRun (fun r => bind (k r) f)
  end.

#[global] Instance prog_ret : MRet prog := @Ret.
#[global] Instance prog_bind : MBind prog := fun A B f p => bind p f.

(** [try: p  except ...: h]: [h e] is the handler of the clause that
    matches [e], [None] when no clause does. *)
Fixpoint try_except {A} (p : prog A) (h : raised -> option (prog A)) : prog A :=
  match p with
  | Ret a => Ret a
  | Raise e => match h e with Some q => q | None => Raise e end
  | Act g k => Act g (fun x => try_except (k x) h)
  | TimeTime l k => TimeTime l (fun t => try_except (k t) h)
  | LoadGlobal n k => LoadGlobal n (fun b => try_except (k b) h)
  | Ext l c k => Ext l c (fun r => try_except (k r) h)
  | Await l c k => Await l c (fun r => try_except (k r) h)
  | AsyncioRun k => AsyncioRun (fun r => try_except (k r) h)
  end.

(** [try: p  finally: f]. *)
Fixpoint try_finally {A} (p : prog A) (f : prog unit) : prog A :=
  match p with
  | Ret a => bind f (fun _ => Ret a)
  | Raise e => bind f (fun _ => Raise e)
  | Act g k => Act g (fun x => try_finally (k x) f)
  | TimeTime l k => TimeTime l (fun t => try_finally (k t) f)
  | LoadGlobal n k => LoadGlobal n (fun b => try_finally (k b) f)
  | Ext l c k => Ext l c (fun r => try_finally (k r) f)
  | Await l c k => Await l c (fun r => try_finally (k r) f)
  | AsyncioRun k => AsyncioRun (fun r => try_finally (k r) f)
  end.

Definition read {X} (f : World -> X) : prog X :=
  Act (fun w => (w, f w)) Ret.

Definition write (f : World -> World) : prog unit :=
  Act (fun w => (f w, tt)) Ret.

Definition time_time (line : nat) : prog Q := TimeTime line Ret.

(** Evaluating a name that is not local: [NameError] unless the module (or
    the builtins) binds it. *)
Definition load_global (name : string) : prog unit :=
  LoadGlobal name (fun bound =>
    if bound then Ret tt
    else Raise (Exc (NameError name))).

Definition ext (line : nat) (c : extcall) : prog str :=
  Ext line c (fun r =>
    match r with
    | Answer v => Ret v
    | Fails e => Raise (Exc e)
    end).

(** [asyncio.run(bot.run())]: the bot runs until it is stopped. *)
Definition asyncio_run_bot : prog unit :=
  AsyncioRun (fun r =>
    match r with
    | Returns _ => Ret tt
    | Raises e => Raise e
    end).

Definition await (line : nat) (c : acall) : prog unit :=
  Await line c (fun r =>
    match r with
    | Woken => Ret tt
    | Thrown e => Raise (Exc e)
    | Cancelled => Raise CancelledError
    end).

(** An awaited call made by a handler outside the upload task: a [/cancel]
    handled meanwhile cancels the task, not this handler, so the call
    completes. *)
Definition await_reply (line : nat) (c : acall) : prog unit :=
  Await line c (fun r =>
    match r with
    | Thrown e => Raise (Exc e)
    | _ => Ret tt
    end).

(** [await task] for a task that has just been created: the task runs [p];
    before its first step it can only be cancelled. *)
Definition await_task {A} (line : nat) (task : nat) (p : prog A) : prog A :=
  Await line (start_task task) (fun r =>
    match r with
    | Cancelled => Raise CancelledError
    | _ => p
    end).

Definition lift {A} (r : result A) : prog A :=
  match r with
  | Returns a => Ret a
  | Raises e => Raise e
  end.

Definition logger (l : log_entry) : prog unit := write (record (Logged l)).

Definition Qlt_bool (a b : Q) : bool := negb (Qle_bool b a).

Definition os_path_exists (path : str) : prog bool :=
  read (fun w => bool_decide (path ∈ disk w)).

Definition os_remove (path : str) : prog unit :=
  write (fun w => record (Removed path) (with_disk (fun d => d ∖ {[path]}) w)).

(** [del self.user_tasks[user_id]]. *)
Definition del_user_tasks (user_id : Z) : prog unit :=
  present ← read (fun w => bool_decide (is_Some (user_tasks w !! user_id)));
  if present : bool
  then write (fun w => record (TaskDeleted user_id) (with_tasks (delete user_id) w))
  else Raise (Exc KeyError).

(** [del self.user_status[user_id]]. *)
Definition del_user_status (user_id : Z) : prog unit :=
  present ← read (fun w => bool_decide (is_Some (user_status w !! user_id)));
  if present : bool
  then write (fun w => record (StatusDeleted user_id) (with_status (delete user_id) w))
  else Raise (Exc KeyError).

(** ** [validate_config] (lines 69-86), [__init__] and [main] (lines 410-418) *)

Definition required_attrs : list string :=
  ["API_ID"; "API_HASH"; "BOT_TOKEN";
   "WASABI_ACCESS_KEY"; "WASABI_SECRET_KEY"; "WASABI_BUCKET"]%string.

(** The truth value of [getattr(config, attr, None)]. *)
Definition attr_truthy (config : Config) (attr : string) : bool :=
  if String.eqb attr "API_ID" then negb (API_ID config =? 0)
  else if String.eqb attr "API_HASH" then negb (str_eqb (API_HASH config) [])
  else if String.eqb attr "BOT_TOKEN" then negb (str_eqb (BOT_TOKEN config) [])
  else if String.eqb attr "WASABI_ACCESS_KEY"
  then negb (str_eqb (WASABI_ACCESS_KEY config) [])
  else if String.eqb attr "WASABI_SECRET_KEY"
  then negb (str_eqb (WASABI_SECRET_KEY config) [])
  else if String.eqb attr "WASABI_BUCKET" then negb (str_eqb (WASABI_BUCKET config) [])
  else false.

(** [sep.join(l)]. *)
Fixpoint str_join (sep : str) (l : list str) : str :=
  match l with
  | [] => []
  | [x] => x
  | x :: l' => x ++ sep ++ str_join sep l'
  end.

Definition missing_attrs (config : Config) : list string :=
  filter (fun attr => attr_truthy config attr = false) required_attrs.

Definition validate_config (config : Config) : prog unit :=
  let missing := missing_attrs config in
  match missing with
  | _ :: _ =>
      Raise (Exc (ValueError
        (py "Missing configuration: " ++ str_join (py ", ") (map py missing))))
  | [] =>
      ext 85 (os_makedirs (DOWNLOAD_DIR config));;
      logger LogConfigValidated
  end.

(** [WasabiUploadBot.__init__]: after the validation it only builds the
    client objects and the two empty dictionaries. *)
Definition WasabiUploadBot_init (config : Config) : prog unit :=
  validate_config config.

Definition main (config : Config) : prog unit :=
  try_except
    (WasabiUploadBot_init config;;
     asyncio_run_bot)
    (fun r =>
       match r with
       | KeyboardInterrupt => Some (logger LogInterrupted)
       | Exc e => Some (logger (LogFatal e))
       | CancelledError => None
       end).

(** The exit status of the interpreter once [main()] is over: 0 when it
    returns, 1 when an exception leaves it. *)
Definition exit_status {A} (r : result A) : Z :=
  match r with
  | Returns _ => 0
  | Raises _ => 1
  end.

(** ** [progress_bar] (lines 120-170) *)

Definition progress_bar (current total : Z) (cb : callback) : prog unit :=
  let '(ProgressBar chat_id start_time operation) := cb in
  try_except
    (has ← read (fun w => bool_decide (is_Some (last_update_attr w)));
     (if has : bool then Ret tt
      else
        (* self.progress_bar.last_update = {}: self.progress_bar is a bound
           method, and a method object accepts no attribute *)
        Raise (Exc (AttributeError
                      "'method' object has no attribute 'last_update'")));;
     now ← time_time 135;
     table ← read (fun w => default ∅ (last_update_attr w));
     let last_update := default 0%Q (table !! chat_id) in
     if Qlt_bool (now - last_update) (3 # 2) && negb (current =? total)
     then Ret tt
     else
       write (with_last_update (fmap (insert chat_id now)));;
       let elapsed := (now - start_time)%Q in
       let speed :=
         if Qlt_bool 0 elapsed then (inject_Z current / elapsed)%Q else 0%Q in
       let percentage :=
         if 0 <? total then (inject_Z current / inject_Z total * 100)%Q else 0%Q in
       let filled := Z.min 20 (Qfloor (20 * percentage / 100)) in
       let eta :=
         if Qlt_bool 0 speed then (inject_Z (total - current) / speed)%Q else 0%Q in
       transferred ← lift (human_size (inject_Z current));
       of_total ← lift (human_size (inject_Z total));
       rate ← lift (human_size speed);
       await 165 (edit_text chat_id
         (TxtProgress operation filled (format_1f percentage)
                      transferred of_total rate eta)))
    (fun r =>
       match r with
       | Exc (FloodWait value) => Some (await 168 (asyncio_sleep value))
       | Exc e => Some (logger (LogProgressError e))
       | _ => None
       end).

(** ** The command handlers (lines 192-226) *)

Definition cancel_handler (message : Message) : prog unit :=
  let user_id := from_user message in
  task ← read (fun w => user_tasks w !! user_id);
  match task with
  | Some task =>
      write (record (TaskCancelRequested task));;
      del_user_tasks user_id;;
      status ← read (fun w => user_status w !! user_id);
      match status with
      | Some status =>
          let file_path := st_file_path status in
          present ← (if str_eqb file_path [] then Ret false
                     else os_path_exists file_path);
          (if present : bool then os_remove file_path else Ret tt);;
          del_user_status user_id
      | None => Ret tt
      end;;
      await_reply 207 (reply_text (chat message) TxtCancelled)
  | None => await_reply 209 (reply_text (chat message) TxtNothingToCancel)
  end.


(** ** [process_upload] (lines 270-392) and [file_handler] (lines 228-268) *)

Section Upload.

Variable unicode_word : N -> bool.

(** [mimetypes.guess_type(path)[0]]. *)
Variable guess_type : str -> option str.

Variable config : Config.

Definition QUOTE : N := 34.

(** [f"{user_id}/{int(time.time())}_{safe_filename}"] (line 323), [t] being
    the reading of the clock. *)
Definition s3_key_at (user_id : Z) (t : Q) (safe_filename : str) : str :=
  str_of_int user_id ++ [SLASH] ++ str_of_int (int_of_float t)
  ++ [UNDERSCORE] ++ safe_filename.

(** [process_upload] from line 281 on, [original_filename] being known. *)
Definition process_upload_from (message : Message) (media : Media)
    (original_filename : str) : prog unit :=
  let user_id := from_user message in
  t ← time_time 107;
  let safe_filename := sanitize_filename unicode_word t original_filename in
  (* Create user-specific download path *)
  let user_dir := path_join (DOWNLOAD_DIR config) (str_of_int user_id) in
  ext 285 (os_makedirs user_dir);;
  let file_path := path_join user_dir safe_filename in
  (* Status tracking *)
  start_time ← time_time 295;
  write (with_status (insert user_id
    {| st_filename := safe_filename; st_file_path := file_path;
       st_progress := 0; st_speed := py "0B/s"; st_elapsed := 0;
       st_start_time := start_time |}));;
  (* Step 1: Download from Telegram *)
  await 299 (reply_text (chat message) TxtDownloading);;
  download_start ← time_time 300;
  try_except
    (await 304 (download_media file_path
                  (ProgressBar (chat message) download_start (py "Downloading")));;
     (* Update status *)
     t ← time_time 312;
     let download_time := (t - download_start)%Q in
     status ← read (fun w => user_status w !! user_id);
     match status with
     | Some status =>
         write (with_status (insert user_id
           {| st_filename := st_filename status;
              st_file_path := st_file_path status;
              st_progress := st_progress status; st_speed := st_speed status;
              st_elapsed := download_time;
              st_start_time := st_start_time status |}))
     | None => Raise (Exc KeyError)
     end;;
     (* Step 2: Upload to Wasabi *)
     await 316 (edit_text (chat message) TxtUploading);;
     upload_start ← time_time 317;
     let mime_type :=
       default (py "application/octet-stream") (guess_type file_path) in
     t ← time_time 323;
     let s3_key := s3_key_at user_id t safe_filename in
     load_global "s3_client";;
     t ← time_time 334;
     ext 325 (upload_file file_path (WASABI_BUCKET config) s3_key mime_type
                original_filename (str_of_int user_id)
                (str_of_int (int_of_float t)));;
     t ← time_time 340;
     let upload_time := (t - upload_start)%Q in
     (* Step 3: Generate streaming URLs *)
     stream_url ← ext 343 (generate_presigned_url (WASABI_BUCKET config) s3_key
       (py "attachment; filename=" ++ [QUOTE] ++ original_filename ++ [QUOTE])
       (URL_EXPIRY config));
     (* Cleanup local file *)
     present ← os_path_exists file_path;
     (if present : bool then os_remove file_path else Ret tt);;
     (* Prepare response *)
     let total_time := (download_time + upload_time)%Q in
     let avg_speed :=
       if Qlt_bool 0 total_time
       then (inject_Z (file_size media) / total_time)%Q else 0%Q in
     size ← lift (human_size (inject_Z (file_size media)));
     speed ← lift (human_size avg_speed);
     await 369 (edit_text (chat message)
       (TxtComplete original_filename size (format_1f download_time)
          (format_1f upload_time) speed (take 60 stream_url)
          (URL_EXPIRY config / 3600)));;
     logger (LogCompleted user_id original_filename))
    (fun r =>
       match r with
       | Exc e =>
           Some (logger (LogProcessError e);;
                 await 386 (edit_text (chat message) (TxtError e));;
                 (* Cleanup on error *)
                 present ← os_path_exists file_path;
                 (if present : bool then os_remove file_path else Ret tt);;
                 Raise (Exc e))
       | _ => None
       end).

Definition process_upload (message : Message) (media : Media) : prog unit :=
  (* Sanitize filename *)
  original_filename ←
    match file_name media with
    | Some (c :: n) => Ret (c :: n)
    | _ => t ← time_time 280; Ret (py "file_" ++ str_of_int (int_of_float t))
    end;
  process_upload_from message media original_filename.

(** [message.document or message.video or message.audio]. *)
Definition media_of (message : Message) : option Media :=
  match document message with
  | Some m => Some m
  | None => match video message with
            | Some m => Some m
            | None => audio message
            end
  end.

(** [asyncio.create_task]: a fresh task handle. *)
Definition create_task : prog nat :=
  Act (fun w => (with_created S w, tasks_created w)) Ret.

Definition file_handler (message : Message) : prog unit :=
  (* Get media from message *)
  match media_of message with
  | None => Ret tt
  | Some media =>
      (* Check file size limit *)
      if MAX_FILE_SIZE config <? file_size media then
        limit ← lift (human_size (inject_Z (MAX_FILE_SIZE config)));
        await_reply 237 (reply_text (chat message) (TxtTooLarge limit))
      else
        (* Check concurrent uploads *)
        active ← read (fun w =>
          bool_decide (is_Some (user_tasks w !! from_user message)));
        if active : bool then
          await_reply 244 (reply_text (chat message) TxtAlreadyActive)
        else
          (* Start upload task *)
          task ← create_task;
          write (with_tasks (insert (from_user message) task));;
          try_finally
            (try_except
               (await_task 257 task (process_upload message media))
               (fun r =>
                  match r with
                  | CancelledError =>
                      Some (logger (LogCancelled (from_user message)))
                  | Exc e =>
                      Some (logger (LogUploadError e);;
                            await_reply 262 (reply_text (chat message)
                                         (TxtUploadFailed e)))
                  | KeyboardInterrupt => None
                  end))
            ((* Cleanup *)
             active ← read (fun w =>
               bool_decide (is_Some (user_tasks w !! from_user message)));
             (if active : bool then del_user_tasks (from_user message)
              else Ret tt);;
             tracked ← read (fun w =>
               bool_decide (is_Some (user_status w !! from_user message)));
             if tracked : bool then del_user_status (from_user message)
             else Ret tt)
  end.

End Upload.

(** ** Running a coroutine *)

(** One call of the progress callback made by [download_media]. *)
Record tick := {
  tick_now : Q;                    (* time.time() during the call *)
  tick_current : Z;
  tick_total : Z;
  tick_edit : option exception     (* what status_msg.edit_text raises *)
}.

(** What the collaborators do during one run.  Each call site of bot.py is
    executed at most once per job, so the answers are given per line. *)
Record Env := {
  time_at : nat -> Q;              (* time.time() *)
  wake_at : nat -> wake;           (* the awaited calls *)
  ext_at : nat -> answer;          (* os.makedirs, upload_file, ... *)
  ticks : list tick;               (* progress callbacks of the download *)
  partial_file : bool;             (* an unfinished download leaves a file *)
  bot_run : result unit            (* how asyncio.run(bot.run()) ends *)
}.

(** The names bound at module level in bot.py (lines 1-32 and 410); a name
    that is neither local nor listed here nor a builtin is unbound. *)
Definition module_globals : list string :=
  ["os"; "asyncio"; "time"; "math"; "mimetypes"; "re"; "logging"; "Path";
   "Dict"; "Optional"; "defaultdict"; "Client"; "filters"; "idle"; "Message";
   "InlineKeyboardMarkup"; "InlineKeyboardButton"; "FloodWait"; "RPCError";
   "boto3"; "ClientError"; "TransferConfig"; "config"; "logger";
   "WasabiUploadBot"; "main"]%string.

Definition ext_effect (c : extcall) (r : answer) (w : World) : World :=
  match c, r with
  | os_makedirs path, Answer _ => record (MadeDirs path) w
  | upload_file _ bucket key _ _ _ _, Answer _ =>
      record (Uploaded bucket key) (with_objects (union {[(bucket, key)]}) w)
  | generate_presigned_url bucket key _ expires, Answer _ =>
      record (Presigned bucket key expires) w
  | _, Fails _ => w
  end.

Section Exec.

(** The module namespace in which global names are looked up. *)
Variable G : list string.
Variable env : Env.

(** How a progress callback runs, and what the [/cancel] command of the
    owner does to the state. *)
Variable run_callback : callback -> tick -> World -> World.
Variable on_cancel : World -> World.

(** The states the bot goes through while a coroutine is suspended in the
    call [c]: one, except for a download, where each progress callback
    gives a new one. *)
Fixpoint after_ticks (cb : callback) (ts : list tick) (w : World) : list World :=
  match ts with
  | [] => [w]
  | t :: ts' => w :: after_ticks cb ts' (run_callback cb t w)
  end.

Definition await_states (c : acall) (w : World) : list World :=
  match c with
  | download_media _ cb => after_ticks cb (ticks env) w
  | _ => [w]
  end.

(** The state when the awaited call is over.  A message whose call is
    interrupted by a cancellation counts as delivered. *)
Definition await_effect (c : acall) (r : wake) (w : World) : World :=
  match c with
  | reply_text chat t =>
      match r with Thrown _ => w | _ => record (Sent chat t) w end
  | edit_text chat t =>
      match r with Thrown _ => w | _ => record (Edited chat t) w end
  | download_media path cb =>
      let w' := foldl (fun w t => run_callback cb t w) w (ticks env) in
      match r with
      | Woken => with_disk (union {[path]}) w'
      | _ => if partial_file env then with_disk (union {[path]}) w' else w'
      end
  | asyncio_sleep _ => w
  | start_task _ => w
  end.

Definition resume (c : acall) (r : wake) (w : World) : World :=
  let w' := await_effect c r w in
  match r with
  | Cancelled => on_cancel w'
  | _ => w'
  end.

Fixpoint exec_with {A} (p : prog A) (w : World) : World * result A :=
  match p with
  | Ret a => (w, Returns a)
  | Raise e => (w, Raises e)
  | Act f k => let '(w', x) := f w in exec_with (k x) w'
  | TimeTime l k => exec_with (k (time_at env l)) w
  | LoadGlobal n k => exec_with (k (bool_decide (n ∈ G))) w
  | Ext l c k => exec_with (k (ext_at env l)) (ext_effect c (ext_at env l) w)
  | Await l c k => exec_with (k (wake_at env l)) (resume c (wake_at env l) w)
  | AsyncioRun k => exec_with (k (bot_run env)) (record BotRan w)
  end.

(** The suspension points met on the way, oldest first, each with the
    states that the other handlers can observe there. *)
Fixpoint suspensions {A} (p : prog A) (w : World) : list (nat * World) :=
  match p with
  | Ret _ | Raise _ => []
  | Act f k => let '(w', x) := f w in suspensions (k x) w'
  | TimeTime l k => suspensions (k (time_at env l)) w
  | LoadGlobal n k => suspensions (k (bool_decide (n ∈ G))) w
  | Ext l c k => suspensions (k (ext_at env l)) (ext_effect c (ext_at env l) w)
  | Await l c k =>
      map (pair l) (await_states c w)
      ++ suspensions (k (wake_at env l)) (resume c (wake_at env l) w)
  | AsyncioRun k => suspensions (k (bot_run env)) (record BotRan w)
  end.

End Exec.

(** A handler that is not itself cancelled and starts no download. *)
Definition exec_handler {A} (G : list string) (env : Env)
    (p : prog A) (w : World) : World * result A :=
  exec_with G env (fun _ _ w => w) (fun w => w) p w.

(** One call of [progress_bar] by the download. *)
Definition run_progress_bar (G : list string) (cb : callback) (t : tick)
    (w : World) : World :=
  let env :=
    {| time_at := fun _ => tick_now t;
       wake_at := fun _ => match tick_edit t with
                           | None => Woken
                           | Some e => Thrown e
                           end;
       ext_at := fun _ => Answer [];
       ticks := []; partial_file := false; bot_run := Returns tt |} in
  fst (exec_handler G env (progress_bar (tick_current t) (tick_total t) cb) w).

(** The [/cancel] command sent by the author of [message]. *)
Definition cancel_command (message : Message) : Message :=
  {| from_user := from_user message; chat := chat message;
     document := None; video := None; audio := None |}.

(** A job: the handler of one file message, run to its end.  A [Cancelled]
    answer stands for the owner's [/cancel] being handled while the task is
    suspended at that line; the task then resumes with [CancelledError]
    before any other update of this owner is handled. *)
Definition run_cancel (G : list string) (env : Env) (message : Message)
    (w : World) : World :=
  fst (exec_handler G env (cancel_handler (cancel_command message)) w).

Definition exec {A} (G : list string) (env : Env) (message : Message)
    (p : prog A) (w : World) : World * result A :=
  exec_with G env (run_progress_bar G) (run_cancel G env message) p w.


(** ** The vocabulary of the specification *)

(** [os.path.isabs]. *)
Definition os_path_isabs (p : str) : bool :=
  match p with
  | c :: _ => (c =? SLASH)%N
  | [] => false
  end.

Definition is_separator (c : N) : bool := ((c =? SLASH) || (c =? BACKSLASH))%N.

(** The string contains two consecutive dots. *)
Fixpoint has_dotdot (s : str) : bool :=
  match s with
  | a :: s' =>
      match s' with
      | b :: _ => ((a =? DOT) && (b =? DOT))%N || has_dotdot s'
      | [] => false
      end
  | [] => false
  end.

(** At least one of the six mandatory values is absent: the number is 0 or
    the string is empty, which is what an unset variable gives. *)
Definition mandatory_absent (config : Config) : Prop :=
  API_ID config = 0 \/ API_HASH config = [] \/ BOT_TOKEN config = []
  \/ WASABI_ACCESS_KEY config = [] \/ WASABI_SECRET_KEY config = []
  \/ WASABI_BUCKET config = [].

(** Counting the events of one kind in a journal. *)
Definition count_events (f : event -> bool) (j : list event) : nat :=
  length (List.filter f j).

Definition is_removal (e : event) : bool :=
  match e with Removed _ => true | _ => false end.

Definition is_task_deletion (e : event) : bool :=
  match e with TaskDeleted _ => true | _ => false end.

Definition is_status_deletion (e : event) : bool :=
  match e with StatusDeleted _ => true | _ => false end.

(** The store was written to, or a link was issued. *)
Definition is_store_event (e : event) : bool :=
  match e with Uploaded _ _ | Presigned _ _ _ => true | _ => false end.

(** The job was reported as completed. *)
Definition is_completion (e : event) : bool :=
  match e with
  | Edited _ (TxtComplete _ _ _ _ _ _ _) | Logged (LogCompleted _ _) => true
  | _ => false
  end.

(** A progress update was pushed to the notifier. *)
Definition is_progress_update (e : event) : bool :=
  match e with Edited _ (TxtProgress _ _ _ _ _ _ _) => true | _ => false end.

(** What a call of [progress_bar] may add to the journal. *)
Definition is_progress_event (e : event) : bool :=
  match e with
  | Edited _ (TxtProgress _ _ _ _ _ _ _) | Logged (LogProgressError _) => true
  | _ => false
  end.

(** The name and the staging path that [process_upload] computes
    (lines 280-286). *)
Definition job_file_name (uw : N -> bool) (env : Env) (media : Media) : str :=
  sanitize_filename uw (time_at env 107)
    match file_name media with
    | Some (c :: n) => c :: n
    | _ => py "file_" ++ str_of_int (int_of_float (time_at env 280))
    end.

Definition job_file_path (uw : N -> bool) (config : Config) (env : Env)
    (message : Message) (media : Media) : str :=
  path_join (path_join (DOWNLOAD_DIR config) (str_of_int (from_user message)))
            (job_file_name uw env media).

(** The configuration read from an empty environment, and collaborators
    that always answer. *)
Definition unset_Config : Config :=
  {| API_ID := 0; API_HASH := []; BOT_TOKEN := [];
     WASABI_ACCESS_KEY := []; WASABI_SECRET_KEY := []; WASABI_BUCKET := [];
     WASABI_REGION := py "us-east-1";
     WASABI_ENDPOINT := py "https://s3.us-east-1.wasabisys.com";
     MAX_FILE_SIZE := 4 * 1024 * 1024 * 1024;
     URL_EXPIRY := 24 * 3600;
     DOWNLOAD_DIR := py "downloads";
     MULTIPART_THRESHOLD := 25 * 1024 * 1024;
     MULTIPART_CHUNKSIZE := 25 * 1024 * 1024;
     MAX_CONCURRENCY := 10;
     PROGRESS_UPDATE_INTERVAL := 3 # 2;
     MAX_CONCURRENT_UPLOADS_PER_USER := 1;
     DAILY_UPLOAD_LIMIT := None;
     LOG_LEVEL := py "INFO";
     LOG_FILE := None |}.

Definition calm : Env :=
  {| time_at := fun _ => 1700000000 # 1;
     wake_at := fun _ => Woken;
     ext_at := fun _ => Answer (py "https://s3.example/object");
     ticks := [];
     partial_file := false;
     bot_run := Returns tt |}.

(** A call of the progress callback leaves the registry, the status
    records, the disk and the store as they are. *)
Definition progress_step (w w' : World) : Prop :=
  user_tasks w' = user_tasks w /\ user_status w' = user_status w
  /\ disk w' = disk w /\ objects w' = objects w
  /\ tasks_created w' = tasks_created w
  /\ (last_update_attr w = None -> last_update_attr w' = None)
  /\ exists extra, journal w' = extra ++ journal w
                   /\ Forall (fun e => is_progress_event e = true) extra.

(** The two parts of the [try] statement of [file_handler]: the [except]
    clauses (lines 258-262) and the [finally] block (lines 263-268). *)
Definition file_handler_except (message : Message) (r : raised)
    : option (prog unit) :=
  match r with
  | CancelledError => Some (logger (LogCancelled (from_user message)))
  | Exc e =>
      Some (logger (LogUploadError e);;
            await_reply 262 (reply_text (chat message) (TxtUploadFailed e)))
  | KeyboardInterrupt => None
  end.

Definition file_handler_finally (message : Message) : prog unit :=
  active ← read (fun w =>
    bool_decide (is_Some (user_tasks w !! from_user message)));
  (if active : bool then del_user_tasks (from_user message) else Ret tt);;
  tracked ← read (fun w =>
    bool_decide (is_Some (user_status w !! from_user message)));
  if tracked : bool then del_user_status (from_user message) else Ret tt.

(** What [cancel_handler] does to the state when the owner has a task
    registered, the reply apart. *)
Definition cancel_state (message : Message) (task : nat) (w : World) : World :=
  let user_id := from_user message in
  let w1 := record (TaskDeleted user_id)
              (with_tasks (delete user_id)
                 (record (TaskCancelRequested task) w)) in
  match user_status w !! user_id with
  | Some status =>
      let path := st_file_path status in
      let w2 := if negb (str_eqb path []) && bool_decide (path ∈ disk w)
                then record (Removed path)
                       (with_disk (fun d => d ∖ {[path]}) w1)
                else w1 in
      record (StatusDeleted user_id) (with_status (delete user_id) w2)
  | None => w1
  end.

Definition cancel_reply (env : Env) (message : Message) (w : World) : World :=
  match wake_at env 207 with
  | Thrown _ => w
  | _ => record (Sent (chat message) TxtCancelled) w
  end.

(** What [cancel_handler] does when the owner has no task registered. *)
Definition cancel_idle (env : Env) (message : Message) (w : World) : World :=
  match wake_at env 209 with
  | Thrown _ => w
  | _ => record (Sent (chat message) TxtNothingToCancel) w
  end.

(** The outcome of a handler that only sends the reply [t] at [line]. *)
Definition replied (env : Env) (line : nat) (chat_id : Z) (t : text)
    (w : World) : World * result unit :=
  match wake_at env line with
  | Thrown e => (w, Raises (Exc e))
  | _ => (record (Sent chat_id t) w, Returns tt)
  end.

(** The download is started: the directory is made and the first status
    message is sent. *)
Definition download_reached (env : Env) : bool :=
  match ext_at env 285, wake_at env 299 with
  | Answer _, Woken => true
  | _, _ => false
  end.

Definition is_cancelled (r : wake) : bool :=
  match r with Cancelled => true | _ => false end.

(** The run puts a file at the staging path: the download is started and
    either completes or leaves a partial file behind. *)
Definition file_staged (env : Env) : bool :=
  negb (is_cancelled (wake_at env 257))
  && (download_reached env
      && match wake_at env 304 with Woken => true | _ => partial_file env end).

(** The state in which a job ends: the registry entry of the owner [u] has
    been deleted once since the journal was [j], the staging file has been
    removed once if there was one and not at all otherwise, and neither
    the entries nor the file are left. *)
Definition clean_exit (u : Z) (path : str) (staged : bool)
    (j : list event) (res : World * result unit) : Prop :=
  let w' := fst res in
  count_events is_task_deletion (journal w')
    = S (count_events is_task_deletion j)
  /\ count_events is_removal (journal w')
     = ((if staged then 1 else 0) + count_events is_removal j)%nat
  /\ user_tasks w' !! u = None
  /\ user_status w' !! u = None
  /\ path ∉ disk w'.

(** ** A program logic for coroutines *)

(** [holds G env run_callback on_cancel I Q p w]: when [p] is run from the
    state [w], [I] holds of every suspension point, with each state that is
    observable there, and [Q] holds of the final state and of the result. *)
Definition holds {A} (G : list string) (env : Env)
    (run_callback : callback -> tick -> World -> World)
    (on_cancel : World -> World)
    (I : nat * World -> Prop) (Q : World -> result A -> Prop)
    (p : prog A) (w : World) : Prop :=
  Forall I (suspensions G env run_callback on_cancel p w)
  /\ Q (fst (exec_with G env run_callback on_cancel p w))
       (snd (exec_with G env run_callback on_cancel p w)).

(** ** Submissions and jobs *)

(** [media.file_name or f"file_{int(time.time())}"] (line 280). *)
Definition job_original_name (env : Env) (media : Media) : str :=
  match file_name media with
  | Some (c :: n) => c :: n
  | _ => py "file_" ++ str_of_int (int_of_float (time_at env 280))
  end.

(** The submission passes the checks of [file_handler] (lines 231-248): it
    carries a medium within the size limit and its author has no task
    registered. *)
Definition accepted (config : Config) (message : Message) (media : Media)
    (w : World) : Prop :=
  media_of message = Some media
  /\ file_size media <= MAX_FILE_SIZE config
  /\ user_tasks w !! from_user message = None.

(** What the other handlers find at a suspension point of the job of the
    owner [u]: the task is registered, and the status record of the owner,
    once it is there, still has the progress and the speed it was created
    with. *)
Definition in_flight_ok (u : Z) (task : nat) (name : str)
    (lw : nat * World) : Prop :=
  user_tasks (snd lw) !! u = Some task
  /\ match user_status (snd lw) !! u with
     | Some st =>
         st_filename st = name /\ st_progress st = 0%Q
         /\ st_speed st = py "0B/s"
     | None => True
     end.

(** The job has written nothing to the object store, issued no link and
    reported no completion. *)
Definition store_untouched (w w' : World) : Prop :=
  objects w' = objects w
  /\ count_events is_store_event (journal w')
     = count_events is_store_event (journal w)
  /\ count_events is_completion (journal w')
     = count_events is_completion (journal w).

(** The owner [u] has neither a registry entry nor a status record. *)
Definition unregistered (u : Z) (w : World) : Prop :=
  user_tasks w !! u = None /\ user_status w !! u = None.

(** The entries of the owners other than [u] are what they were. *)
Definition others_untouched (u : Z) (w w' : World) : Prop :=
  forall u', u' <> u ->
    user_tasks w' !! u' = user_tasks w !! u'
    /\ user_status w' !! u' = user_status w !! u'.

(** What is true of every run of [file_handler] on an accepted submission
    of the owner [u], [path] being the staging path of the job. *)
Definition job_outcome (env : Env) (u : Z) (path : str) (w : World)
    (w' : World) (r : result unit) : Prop :=
  (unregistered u w' /\ others_untouched u w w'
   /\ tasks_created w' = S (tasks_created w))
  /\ (r = Returns tt
      \/ exists e, wake_at env 262 = Thrown e /\ r = Raises (Exc e))
  /\ (last_update_attr w = None ->
      count_events is_progress_update (journal w')
      = count_events is_progress_update (journal w))
  /\ (path ∉ disk w -> (forall e, wake_at env 386 <> Thrown e) ->
      clean_exit u path (file_staged env) (journal w) (w', r)).

(** The directory part that [os.path.join] puts before a relative name. *)
Definition join_prefix (a : str) : str :=
  match last a with
  | None => []
  | Some d => if (d =? SLASH)%N then a else a ++ [SLASH]
  end.


(** A submission, a configuration with every mandatory value set, and
    collaborators that answer except for the error report of line 386. *)
Definition a_document : Media :=
  {| file_name := Some (py "report.pdf"); file_size := 1536 |}.

Definition a_submission : Message :=
  {| from_user := 7; chat := 7; document := Some a_document;
     video := None; audio := None |}.

Definition a_large_document : Media :=
  {| file_name := Some (py "film.mkv");
     file_size := 5 * 1024 * 1024 * 1024 |}.

Definition a_large_submission : Message :=
  {| from_user := 7; chat := 7; document := None;
     video := Some a_large_document; audio := None |}.

Definition ascii_only : N -> bool := fun _ => false.

Definition no_mime_type : str -> option str := fun _ => None.

Definition complete_Config : Config :=
  {| API_ID := 1; API_HASH := py "h"; BOT_TOKEN := py "t";
     WASABI_ACCESS_KEY := py "k"; WASABI_SECRET_KEY := py "s";
     WASABI_BUCKET := py "b"; WASABI_REGION := WASABI_REGION unset_Config;
     WASABI_ENDPOINT := WASABI_ENDPOINT unset_Config;
     MAX_FILE_SIZE := MAX_FILE_SIZE unset_Config;
     URL_EXPIRY := URL_EXPIRY unset_Config;
     DOWNLOAD_DIR := DOWNLOAD_DIR unset_Config;
     MULTIPART_THRESHOLD := MULTIPART_THRESHOLD unset_Config;
     MULTIPART_CHUNKSIZE := MULTIPART_CHUNKSIZE unset_Config;
     MAX_CONCURRENCY := 10; PROGRESS_UPDATE_INTERVAL := 3 # 2;
     MAX_CONCURRENT_UPLOADS_PER_USER := 1; DAILY_UPLOAD_LIMIT := None;
     LOG_LEVEL := py "INFO"; LOG_FILE := None |}.

Definition failing_report : Env :=
  {| time_at := time_at calm;
     wake_at := fun line => if (line =? 386)%nat then Thrown RPCError else Woken;
     ext_at := ext_at calm;
     ticks := [];
     partial_file := false;
     bot_run := Returns tt |}.

(** The characters a sanitized name is made of: word characters and
    [-.@()]. *)
Definition kept_char (uw : N -> bool) (c : N) : bool :=
  re_word uw c
  || (c =? MINUS)%N || (c =? DOT)%N || (c =? 64)%N
  || (c =? 40)%N || (c =? 41)%N.

(** The bot was run. *)
Definition is_bot_run (e : event) : bool :=
  match e with BotRan => true | _ => false end.

(** * Properties *)

Arguments sanitize_filename : simpl never.
Arguments path_join : simpl never.
Arguments str_of_int : simpl never.
Arguments human_size : simpl never.
Arguments format_1f : simpl never.
Arguments int_of_float : simpl never.
Arguments py : simpl never.
Arguments s3_key_at : simpl never.
Arguments str_join : simpl never.
Arguments run_cancel : simpl never.
Arguments run_progress_bar : simpl never.
Arguments count_events : simpl never.

(** ** Decimal numerals *)

Definition is_digit (c : N) : Prop := (48 <= c <= 57)%N.

Lemma digits_are_digits u : Forall is_digit (digits u).
Proof. induction u; constructor; auto; unfold is_digit; lia. Qed.

Lemma digits_inj u v : digits u = digits v -> u = v.
Proof.
  revert v; induction u; destruct v; simpl; intros H;
    try discriminate; try reflexivity;
    injection H as H; f_equal; auto.
Qed.

Lemma str_of_int_chars z :
  Forall (fun c => is_digit c \/ c = MINUS) (str_of_int z).
Proof.
  unfold str_of_int. destruct (Z.to_int z) as [u|u].
  - eapply Forall_impl; [apply digits_are_digits | auto].
  - constructor; [now right |].
    eapply Forall_impl; [apply digits_are_digits | auto].
Qed.

Lemma str_of_int_avoids c z :
  ~ is_digit c -> c <> MINUS -> c ∉ str_of_int z.
Proof.
  intros Hd Hm Hin.
  pose proof (str_of_int_chars z) as H.
  rewrite Forall_forall in H. destruct (H c Hin); auto.
Qed.

Lemma str_of_int_inj a b : str_of_int a = str_of_int b -> a = b.
Proof.
  unfold str_of_int. intros H.
  rewrite <- (DecimalZ.of_to a), <- (DecimalZ.of_to b).
  destruct (Z.to_int a) as [u|u], (Z.to_int b) as [v|v].
  - now rewrite (digits_inj _ _ H).
  - exfalso. pose proof (digits_are_digits u) as Hu. rewrite H in Hu.
    inversion Hu as [|? ? Hd]. unfold is_digit, MINUS in Hd. lia.
  - exfalso. pose proof (digits_are_digits v) as Hv. rewrite <- H in Hv.
    inversion Hv as [|? ? Hd]. unfold is_digit, MINUS in Hd. lia.
  - injection H as H. now rewrite (digits_inj _ _ H).
Qed.

(** A string is cut in one way only at the first occurrence of [c]. *)
Lemma cut_at_first (c : N) (a b x y : str) :
  c ∉ a -> c ∉ b -> a ++ c :: x = b ++ c :: y -> a = b /\ x = y.
Proof.
  revert b. induction a as [|h a IH]; intros [|k b] Ha Hb H; simpl in H.
  - injection H as ->. auto.
  - injection H as -> _. exfalso. apply Hb. left.
  - injection H as -> _. exfalso. apply Ha. left.
  - injection H as -> H.
    destruct (IH b) as [-> ->]; auto.
    + intros Hin. apply Ha. now right.
    + intros Hin. apply Hb. now right.
Qed.

(** ** Object keys *)

(** C8 (as the code has it): the key names the owner, the whole second at
    which the upload starts and the sanitized filename, and nothing else.
    Two attempts get the same key exactly when they agree on these three. *)
Theorem s3_key_at_same_iff (u1 u2 : Z) (t1 t2 : Q) (n1 n2 : str) :
  s3_key_at u1 t1 n1 = s3_key_at u2 t2 n2
  <-> u1 = u2 /\ int_of_float t1 = int_of_float t2 /\ n1 = n2.
Proof.
  unfold s3_key_at. split.
  - intros H.
    apply cut_at_first in H as [Hu H];
      try (apply str_of_int_avoids; unfold is_digit, SLASH, MINUS; lia).
    apply cut_at_first in H as [Ht Hn];
      try (apply str_of_int_avoids; unfold is_digit, UNDERSCORE, MINUS; lia).
    auto using str_of_int_inj.
  - intros (-> & -> & ->). reflexivity.
Qed.

(** C8 (as stated) fails: two uploads of the same file by the same owner,
    started half a second apart within one second of the clock, get one and
    the same key. *)
Lemma s3_key_at_collision :
  ~ (forall (u1 u2 : Z) (t1 t2 : Q) (n1 n2 : str),
        ~ (u1 = u2 /\ t1 == t2 /\ n1 = n2) ->
        s3_key_at u1 t1 n1 <> s3_key_at u2 t2 n2).
Proof.
  intros H.
  apply (H 7 7 (17000000002 # 10) (17000000007 # 10) (py "a.bin") (py "a.bin")).
  - intros (_ & Ht & _). revert Ht. unfold Qeq. simpl. lia.
  - reflexivity.
Qed.

(** ** The filename sanitizer *)

Lemma safe_char_not_separator uw c :
  safe_char uw c = true -> is_separator c = false.
Proof.
  unfold is_separator. intros H.
  destruct (N.eqb_spec c SLASH) as [->|_]; [discriminate H |].
  destruct (N.eqb_spec c BACKSLASH) as [->|_]; [discriminate H |].
  reflexivity.
Qed.

Lemma fallback_name_no_separator z :
  Forall (fun c => is_separator c = false) (py "file_" ++ str_of_int z).
Proof.
  apply Forall_app. split.
  - repeat constructor.
  - eapply Forall_impl; [apply str_of_int_chars |].
    intros c [Hd | ->]; [| reflexivity].
    unfold is_digit in Hd. unfold is_separator, SLASH, BACKSLASH.
    destruct (N.eqb_spec c 47); [lia |].
    destruct (N.eqb_spec c 92); [lia | reflexivity].
Qed.

Lemma splitext_no_separator (p : str) :
  Forall (fun c => is_separator c = false) p ->
  Forall (fun c => is_separator c = false) (fst (splitext p))
  /\ Forall (fun c => is_separator c = false) (snd (splitext p)).
Proof.
  intros H. unfold splitext.
  destruct (_ && _); simpl; split;
    auto using Forall_take, Forall_drop, Forall_nil.
Qed.

(** C5 (as the code has it): whatever the input, the name returned is not
    empty, contains neither [/] nor [\] and is not an absolute path. *)
Theorem sanitize_filename_no_separator (uw : N -> bool) (t : Q) (filename : str) :
  let name := sanitize_filename uw t filename in
  name <> []
  /\ Forall (fun c => is_separator c = false) name
  /\ os_path_isabs name = false.
Proof.
  assert (Hfall : forall z, let name := py "file_" ++ str_of_int z in
            name <> [] /\ Forall (fun c => is_separator c = false) name
            /\ os_path_isabs name = false).
  { intros z. split; [discriminate |].
    split; [apply fallback_name_no_separator | reflexivity]. }
  assert (Hgen : forall name : str,
            name <> [] -> Forall (fun c => is_separator c = false) name ->
            name <> [] /\ Forall (fun c => is_separator c = false) name
            /\ os_path_isabs name = false).
  { intros [|c name] Hne Hall; [congruence |].
    repeat split; auto. inversion Hall as [|? ? Hc _]; subst.
    unfold is_separator in Hc. simpl.
    destruct (c =? SLASH)%N; [discriminate | reflexivity]. }
  unfold sanitize_filename.
  destruct filename as [|c0 rest]; [apply Hfall |].
  set (kept := map _ (filter _ (Path_name (c0 :: rest)))).
  assert (Hkept : Forall (fun c => is_separator c = false) kept).
  { subst kept. apply Forall_forall. intros c Hc.
    apply list_elem_of_fmap in Hc as (d & -> & Hd).
    apply list_elem_of_filter in Hd as [Hd _].
    destruct (d =? SPACE)%N; [reflexivity |].
    eauto using safe_char_not_separator. }
  set (cut := if 255 <? Z.of_nat (length kept) then _ else kept).
  assert (Hcut : Forall (fun c => is_separator c = false) cut).
  { subst cut. destruct (255 <? _); [| assumption].
    destruct (splitext_no_separator kept Hkept) as [Hn He].
    destruct (splitext kept) as [name ext]. simpl in *.
    apply Forall_app. split; auto using Forall_take. }
  destruct cut as [|c cut']; [apply Hfall |].
  apply Hgen; [discriminate | assumption].
Qed.

(** C5 (as stated) fails: a name with two dots in a row is returned as it
    is, since the dot is one of the characters kept. *)
Lemma sanitize_filename_keeps_dotdot :
  ~ (forall (uw : N -> bool) (t : Q) (filename : str),
        let name := sanitize_filename uw t filename in
        Forall (fun c => is_separator c = false) name
        /\ has_dotdot name = false
        /\ os_path_isabs name = false).
Proof.
  intros H.
  destruct (H (fun _ => false) 0%Q (py "a..b")) as (_ & Hdd & _).
  vm_compute in Hdd. discriminate.
Qed.

(** The parent-directory name itself goes through unchanged: it is the
    last component of the path and is made of kept characters. *)
Lemma sanitize_filename_parent_dir (uw : N -> bool) (t : Q) :
  sanitize_filename uw t (py "..") = py ".."
  /\ sanitize_filename uw t (py "docs/..") = py "..".
Proof. split; reflexivity. Qed.

(** ** [human_size] *)

(** C6 (as the code has it): 0 gives ["0B"]; a negative number makes
    [math.log] raise [ValueError]. *)
Theorem human_size_nonpositive (z : Z) :
  z <= 0 ->
  human_size (inject_Z z)
  = if z =? 0 then Returns (py "0B")
    else Raises (Exc (ValueError (py "math domain error"))).
Proof.
  intros Hz. unfold human_size, Qeq_bool, Qle_bool, inject_Z. simpl.
  rewrite !Z.mul_1_r.
  destruct z as [|p|p]; [reflexivity | lia | reflexivity].
Qed.

Lemma human_size_nonpositive_witness :
  human_size (inject_Z (-5)) = Raises (Exc (ValueError (py "math domain error")))
  /\ human_size (inject_Z 0) = Returns (py "0B").
Proof.
  split.
  - apply (human_size_nonpositive (-5)). lia.
  - apply (human_size_nonpositive 0). lia.
Defined.

(** C6 (as stated) fails at [-1]. *)
Lemma human_size_negative_raises :
  ~ (forall z : Z, z <= 0 -> human_size (inject_Z z) = Returns (py "0B")).
Proof.
  intros H. specialize (H (-1) ltac:(lia)). vm_compute in H. discriminate.
Qed.

Lemma human_size_examples :
  human_size (inject_Z 1536) = Returns (py "1.5 KB")
  /\ human_size (inject_Z (30 * 1024 * 1024)) = Returns (py "30.0 MB")
  /\ human_size (inject_Z (4 * 1024 * 1024 * 1024)) = Returns (py "4.0 GB").
Proof. repeat split; reflexivity. Qed.

(** ** Startup *)

Lemma missing_attrs_nonempty config :
  mandatory_absent config -> missing_attrs config <> [].
Proof.
  intros H Hnil.
  assert (Hex : exists attr,
             attr ∈ required_attrs /\ attr_truthy config attr = false).
  { unfold mandatory_absent in H. unfold required_attrs.
    destruct H as [H|[H|[H|[H|[H|H]]]]];
      [ exists "API_ID"%string | exists "API_HASH"%string
      | exists "BOT_TOKEN"%string | exists "WASABI_ACCESS_KEY"%string
      | exists "WASABI_SECRET_KEY"%string | exists "WASABI_BUCKET"%string ];
      (split; [set_solver | cbn; now rewrite H]). }
  destruct Hex as (attr & Hin & Hf).
  assert (Hm : attr ∈ missing_attrs config).
  { unfold missing_attrs. apply list_elem_of_filter. auto. }
  rewrite Hnil in Hm. inversion Hm.
Qed.

(** C4 (as the code has it): when a mandatory value is absent,
    [validate_config] raises [ValueError] before anything else is done;
    [main] catches it, logs it as a fatal error and returns, the bot is not
    run, and the exit status of the process is 0. *)
Theorem startup_missing_configuration G env config w :
  mandatory_absent config ->
  exec_handler G env (main config) w
  = (record (Logged (LogFatal (ValueError
       (py "Missing configuration: "
        ++ str_join (py ", ") (map py (missing_attrs config)))))) w,
     Returns tt)
  /\ exit_status (snd (exec_handler G env (main config) w)) = 0.
Proof.
  intros H. apply missing_attrs_nonempty in H.
  unfold exec_handler, main, WasabiUploadBot_init, validate_config.
  destruct (missing_attrs config) as [|a l]; [congruence |].
  cbn. split; reflexivity.
Qed.

Lemma load_Config_unset int_of_str :
  load_Config int_of_str (fun _ => None) = Returns unset_Config.
Proof. reflexivity. Qed.

Lemma startup_missing_configuration_witness :
  mandatory_absent unset_Config
  /\ exit_status (snd (exec_handler module_globals calm (main unset_Config) boot)) = 0.
Proof.
  split.
  - left. reflexivity.
  - apply (startup_missing_configuration module_globals calm unset_Config boot).
    left. reflexivity.
Defined.

(** C4 (as stated) fails: with every mandatory value absent the process
    still ends with exit status 0. *)
Lemma startup_exit_status_zero :
  ~ (forall (env : Env) (config : Config),
        mandatory_absent config ->
        exit_status (snd (exec_handler module_globals env (main config) boot)) <> 0).
Proof.
  intros H. apply (H calm unset_Config).
  - left. reflexivity.
  - reflexivity.
Qed.

(** With a complete configuration [main] goes on to run the bot, and an
    exception that is not an [Exception] leaves it: the status is then 1. *)
Lemma exit_status_when_started :
  let config :=
    {| API_ID := 1; API_HASH := py "h"; BOT_TOKEN := py "t";
       WASABI_ACCESS_KEY := py "k"; WASABI_SECRET_KEY := py "s";
       WASABI_BUCKET := py "b"; WASABI_REGION := WASABI_REGION unset_Config;
       WASABI_ENDPOINT := WASABI_ENDPOINT unset_Config;
       MAX_FILE_SIZE := MAX_FILE_SIZE unset_Config;
       URL_EXPIRY := URL_EXPIRY unset_Config;
       DOWNLOAD_DIR := DOWNLOAD_DIR unset_Config;
       MULTIPART_THRESHOLD := MULTIPART_THRESHOLD unset_Config;
       MULTIPART_CHUNKSIZE := MULTIPART_CHUNKSIZE unset_Config;
       MAX_CONCURRENCY := 10; PROGRESS_UPDATE_INTERVAL := 3 # 2;
       MAX_CONCURRENT_UPLOADS_PER_USER := 1; DAILY_UPLOAD_LIMIT := None;
       LOG_LEVEL := py "INFO"; LOG_FILE := None |} in
  let stopped :=
    {| time_at := time_at calm; wake_at := wake_at calm;
       ext_at := ext_at calm; ticks := []; partial_file := false;
       bot_run := Raises CancelledError |} in
  In BotRan (journal (fst (exec_handler module_globals calm (main config) boot)))
  /\ exit_status (snd (exec_handler module_globals calm (main config) boot)) = 0
  /\ exit_status (snd (exec_handler module_globals stopped (main config) boot)) = 1.
Proof. vm_compute. auto. Qed.

(** ** Symbolic execution *)

(** One case split on an answer of the environment that blocks the
    evaluation of a program. *)
Ltac split_env :=
  match goal with
  | |- context [match wake_at ?env ?l with _ => _ end] =>
      let E := fresh "Ewake" in destruct (wake_at env l) eqn:E
  | |- context [match ext_at ?env ?l with _ => _ end] =>
      let E := fresh "Eext" in destruct (ext_at env l) eqn:E
  | |- context [lift (human_size ?x)] =>
      let E := fresh "Ehs" in destruct (human_size x) eqn:E
  | |- context [match tick_edit ?t with _ => _ end] =>
      let E := fresh "Eedit" in destruct (tick_edit t) eqn:E
  | |- context [match ?e with
                | Exc _ => _ | CancelledError => _ | KeyboardInterrupt => _
                end] =>
      is_var e; destruct e
  | |- context [match ?e with FloodWait _ => _ | _ => _ end] =>
      is_var e; destruct e
  end.

(** ** The progress reporter *)

(** C3 (what the code does): [progress_bar] stores its throttle table as an
    attribute of [self.progress_bar], which is a bound method.  Reading the
    attribute falls through to the function, where it is never defined;
    setting it raises [AttributeError].  So every call, the terminal one
    with [current = total] included, ends in the [except Exception] clause:
    the error is logged and no status update is pushed. *)
Theorem progress_bar_never_emits G env current total cb w :
  last_update_attr w = None ->
  exec_handler G env (progress_bar current total cb) w
  = (record (Logged (LogProgressError
       (AttributeError "'method' object has no attribute 'last_update'"))) w,
     Returns tt).
Proof.
  intros H. destruct cb as [chat_id start_time operation].
  unfold exec_handler, progress_bar. cbn. rewrite H. reflexivity.
Qed.

Lemma progress_bar_never_emits_witness :
  count_events is_progress_update
    (journal (fst (exec_handler module_globals calm
       (progress_bar 100 100 (ProgressBar 7 (1699999990 # 1) (py "Downloading")))
       boot))) = 0%nat.
Proof.
  rewrite (progress_bar_never_emits module_globals calm 100 100
             (ProgressBar 7 (1699999990 # 1) (py "Downloading")) boot).
  - reflexivity.
  - reflexivity.
Defined.

(** Had the function carried the attribute, the throttle would be the one
    the specification describes: nothing is done when less than 1.5 s have
    passed since the recorded time and [current <> total]; otherwise the
    time of this call is recorded. *)
Lemma progress_bar_with_attribute G env current total chat_id start operation
    w table :
  last_update_attr w = Some table ->
  let now := time_at env 135 in
  let last_update := default 0%Q (table !! chat_id) in
  let run := exec_handler G env
               (progress_bar current total (ProgressBar chat_id start operation)) w in
  if Qlt_bool (now - last_update) (3 # 2) && negb (current =? total)
  then run = (w, Returns tt)
  else last_update_attr (fst run) = Some (<[chat_id := now]> table).
Proof.
  intros H. cbn zeta. unfold exec_handler, progress_bar.
  cbn. rewrite H. cbn. rewrite ?H. cbn.
  destruct (Qlt_bool _ _ && _); cbn; [reflexivity |].
  rewrite ?H.
  repeat (split_env; cbn; try rewrite H); reflexivity.
Qed.

Lemma progress_step_refl w : progress_step w w.
Proof. repeat split; auto. exists []. split; [reflexivity | constructor]. Qed.

Lemma progress_step_trans w1 w2 w3 :
  progress_step w1 w2 -> progress_step w2 w3 -> progress_step w1 w3.
Proof.
  intros (A1 & B1 & C1 & D1 & E1 & F1 & x1 & J1 & K1)
         (A2 & B2 & C2 & D2 & E2 & F2 & x2 & J2 & K2).
  repeat split; try congruence; auto.
  exists (x2 ++ x1). split.
  - rewrite J2, J1. now rewrite app_assoc.
  - apply Forall_app. auto.
Qed.

Ltac progress_step_done :=
  repeat split; cbn; auto; try congruence;
  first [ exists []; split; [reflexivity | constructor]
        | eexists [_]; split; [reflexivity | repeat constructor] ].

Lemma run_progress_bar_step G cb t w :
  progress_step w (run_progress_bar G cb t w).
Proof.
  destruct cb as [chat_id start_time operation].
  unfold run_progress_bar, exec_handler, progress_bar. cbn.
  destruct (last_update_attr w) as [table|] eqn:H; cbn.
  - destruct (Qlt_bool _ _ && _); cbn; [progress_step_done |].
    repeat (split_env; cbn); progress_step_done.
  - progress_step_done.
Qed.

Lemma ticks_step G cb ts w :
  progress_step w (foldl (fun w t => run_progress_bar G cb t w) w ts).
Proof.
  revert w. induction ts as [|t ts IH]; intros w; simpl.
  - apply progress_step_refl.
  - eapply progress_step_trans; [apply run_progress_bar_step | apply IH].
Qed.

Lemma ticks_user_tasks G cb ts w :
  user_tasks (foldl (fun w t => run_progress_bar G cb t w) w ts) = user_tasks w.
Proof. apply ticks_step. Qed.

Lemma ticks_user_status G cb ts w :
  user_status (foldl (fun w t => run_progress_bar G cb t w) w ts) = user_status w.
Proof. apply ticks_step. Qed.

Lemma ticks_disk G cb ts w :
  disk (foldl (fun w t => run_progress_bar G cb t w) w ts) = disk w.
Proof. apply ticks_step. Qed.

Lemma ticks_objects G cb ts w :
  objects (foldl (fun w t => run_progress_bar G cb t w) w ts) = objects w.
Proof. apply ticks_step. Qed.

Lemma ticks_tasks_created G cb ts w :
  tasks_created (foldl (fun w t => run_progress_bar G cb t w) w ts)
  = tasks_created w.
Proof. apply ticks_step. Qed.

Lemma count_events_app f a b :
  count_events f (a ++ b) = (count_events f a + count_events f b)%nat.
Proof. unfold count_events. now rewrite List.filter_app, length_app. Qed.

Lemma count_events_none f extra :
  Forall (fun e => f e = false) extra -> count_events f extra = 0%nat.
Proof.
  unfold count_events. induction 1 as [|e l He _ IH]; simpl; [reflexivity |].
  now rewrite He.
Qed.

Lemma ticks_count f G cb ts w :
  (forall e, is_progress_event e = true -> f e = false) ->
  count_events f (journal (foldl (fun w t => run_progress_bar G cb t w) w ts))
  = count_events f (journal w).
Proof.
  intros Hf.
  destruct (ticks_step G cb ts w) as (_ & _ & _ & _ & _ & _ & extra & -> & Hx).
  rewrite count_events_app, count_events_none; [reflexivity |].
  eapply Forall_impl; [exact Hx | auto].
Qed.

Lemma after_ticks_Forall (P : World -> Prop) G cb ts w :
  (forall w w', progress_step w w' -> P w -> P w') ->
  P w -> Forall P (after_ticks (run_progress_bar G) cb ts w).
Proof.
  intros HP. revert w. induction ts as [|t ts IH]; intros w Hw; simpl.
  - repeat constructor; assumption.
  - constructor; [assumption |].
    apply IH. eapply HP; [apply run_progress_bar_step | assumption].
Qed.

(** ** More on the filename sanitizer *)

Lemma safe_char_kept uw c :
  safe_char uw c = true ->
  kept_char uw (if (c =? SPACE)%N then UNDERSCORE else c) = true.
Proof.
  unfold safe_char, kept_char. intros H.
  destruct (c =? SPACE)%N; [reflexivity |].
  now rewrite orb_false_r in H.
Qed.

Lemma digit_kept uw c : (48 <= c <= 57)%N -> kept_char uw c = true.
Proof.
  intros H. unfold kept_char, re_word.
  destruct (N.ltb_spec c 128); [| lia].
  destruct (N.leb_spec 48 c); [| lia].
  destruct (N.leb_spec c 57); [| lia]. reflexivity.
Qed.

Lemma fallback_name_kept uw z :
  Forall (fun c => kept_char uw c = true) (py "file_" ++ str_of_int z).
Proof.
  apply Forall_app. split; [repeat constructor |].
  eapply Forall_impl; [apply str_of_int_chars |].
  intros c [Hd | ->]; [now apply digit_kept | reflexivity].
Qed.

Lemma sanitize_filename_kept uw t filename :
  Forall (fun c => kept_char uw c = true) (sanitize_filename uw t filename).
Proof.
  unfold sanitize_filename.
  destruct filename as [|c0 rest]; [apply fallback_name_kept |].
  set (kept := map _ (filter _ (Path_name (c0 :: rest)))).
  assert (Hkept : Forall (fun c => kept_char uw c = true) kept).
  { subst kept. apply Forall_forall. intros c Hc.
    apply list_elem_of_fmap in Hc as (d & -> & Hd).
    apply list_elem_of_filter in Hd as [Hd _].
    now apply safe_char_kept. }
  set (cut := if 255 <? Z.of_nat (length kept) then _ else kept).
  assert (Hcut : Forall (fun c => kept_char uw c = true) cut).
  { subst cut. destruct (255 <? _); [| assumption].
    unfold splitext. destruct (_ && _); cbn [fst snd].
    - apply Forall_app. split; auto using Forall_take, Forall_drop.
    - rewrite app_nil_r. auto using Forall_take. }
  destruct cut as [|c cut']; [apply fallback_name_kept | assumption].
Qed.

(** X1: whatever the input, the name returned is made of word characters
    and of the characters [-.@()] only: it has no space, no control
    character and no separator. *)
Theorem sanitize_filename_charset uw t filename :
  Forall (fun c => kept_char uw c = true) (sanitize_filename uw t filename).
Proof. apply sanitize_filename_kept. Qed.

(** [split_on] and [rfind] on a string cut at a separator. *)
Lemma split_on_absent sep (s : str) : sep ∉ s -> split_on sep s = [s].
Proof.
  induction s as [|c s IH]; intros H; simpl; [reflexivity |].
  destruct (N.eqb_spec c sep) as [->|Hc].
  - exfalso. apply H. left.
  - rewrite IH; [reflexivity |]. intros Hin. apply H. now right.
Qed.

Lemma split_on_last sep (dir name : str) :
  sep ∉ name ->
  exists p ps, split_on sep (dir ++ sep :: name) = (p :: ps) ++ [name].
Proof.
  intros Hn. induction dir as [|c d (p & ps & IH)]; simpl.
  - rewrite N.eqb_refl, split_on_absent by assumption. now exists [], [].
  - rewrite IH. destruct (c =? sep)%N.
    + now exists [], (p :: ps).
    + now exists (c :: p), ps.
Qed.

Lemma Path_name_last (dir name : str) :
  SLASH ∉ name -> name <> [] -> name <> [DOT] ->
  Path_name (dir ++ SLASH :: name) = name.
Proof.
  intros Hs Hne Hd. unfold Path_name.
  destruct (split_on_last SLASH dir name Hs) as (p & ps & ->).
  rewrite filter_app.
  assert (Hkeep : negb (str_eqb name []) && negb (str_eqb name [DOT]) = true).
  { unfold str_eqb. rewrite !bool_decide_eq_false_2 by assumption.
    reflexivity. }
  rewrite (filter_cons_True _ name) by exact Hkeep.
  cbn [filter list_filter]. now rewrite last_snoc.
Qed.

Lemma Path_name_plain (name : str) :
  SLASH ∉ name -> name <> [] -> name <> [DOT] -> Path_name name = name.
Proof.
  intros Hs Hne Hd. unfold Path_name.
  rewrite split_on_absent by assumption.
  assert (Hkeep : negb (str_eqb name []) && negb (str_eqb name [DOT]) = true).
  { unfold str_eqb. rewrite !bool_decide_eq_false_2 by assumption.
    reflexivity. }
  rewrite (filter_cons_True _ name) by exact Hkeep. reflexivity.
Qed.

(** X2: the directories of a path are dropped: only the last component
    counts. *)
Theorem sanitize_filename_drops_directories uw t (dir name : str) :
  SLASH ∉ name -> name <> [] -> name <> [DOT] ->
  sanitize_filename uw t (dir ++ SLASH :: name) = sanitize_filename uw t name.
Proof.
  intros Hs Hne Hd. unfold sanitize_filename.
  rewrite Path_name_last, Path_name_plain by assumption.
  destruct name as [|c n]; [congruence |].
  destruct (dir ++ SLASH :: c :: n) eqn:E; [| reflexivity].
  now apply app_eq_nil in E as [_ E].
Qed.

Lemma sanitize_filename_drops_directories_witness :
  sanitize_filename ascii_only 0 (py "../../etc" ++ SLASH :: py "passwd")
  = sanitize_filename ascii_only 0 (py "passwd").
Proof.
  apply (sanitize_filename_drops_directories ascii_only 0
           (py "../../etc") (py "passwd")).
  - rewrite list_elem_of_In. vm_compute. intuition discriminate.
  - discriminate.
  - discriminate.
Defined.

Lemma rfind_from_absent c (s : str) i found :
  c ∉ s -> rfind_from c s i found = found.
Proof.
  revert i found. induction s as [|x s IH]; intros i found H; simpl;
    [reflexivity |].
  destruct (N.eqb_spec x c) as [->|Hx].
  - exfalso. apply H. left.
  - apply IH. intros Hin. apply H. now right.
Qed.

Lemma rfind_from_last c (a b : str) i found :
  c ∉ b -> rfind_from c (a ++ c :: b) i found = i + Z.of_nat (length a).
Proof.
  intros Hb. revert i found.
  induction a as [|x a IH]; intros i found; simpl.
  - rewrite N.eqb_refl, rfind_from_absent by assumption. lia.
  - rewrite IH. lia.
Qed.

Lemma filter_all {A} (P : A -> bool) (l : list A) :
  Forall (fun c => P c = true) l -> filter (fun c => P c = true) l = l.
Proof.
  induction 1 as [|c l Hc _ IH]; [reflexivity |].
  rewrite filter_cons_True by exact Hc. now rewrite IH.
Qed.

Lemma kept_char_safe uw c : kept_char uw c = true -> safe_char uw c = true.
Proof. unfold safe_char, kept_char. intros ->. reflexivity. Qed.

Lemma kept_char_not_space uw c : kept_char uw c = true -> (c =? SPACE)%N = false.
Proof.
  intros H. destruct (N.eqb_spec c SPACE) as [E|]; [| reflexivity].
  rewrite E in H. discriminate H.
Qed.

Lemma kept_char_not_slash uw c : kept_char uw c = true -> c <> SLASH.
Proof. intros H E. rewrite E in H. discriminate H. Qed.

Lemma splitext_last_dot (stem ext : str) :
  SLASH ∉ stem -> SLASH ∉ ext -> DOT ∉ ext ->
  Exists (fun c => c <> DOT) stem ->
  splitext (stem ++ DOT :: ext) = (stem, DOT :: ext).
Proof.
  intros Hs He Hd Hex. unfold splitext, rfind. cbv zeta.
  assert (Hw : SLASH ∉ stem ++ DOT :: ext).
  { rewrite elem_of_app, elem_of_cons. intros [?|[?|?]]; auto. discriminate. }
  rewrite (rfind_from_absent SLASH) by exact Hw.
  rewrite rfind_from_last by exact Hd.
  rewrite !Z.add_0_l, Nat2Z.id.
  assert (Hlt : (-1 <? Z.of_nat (length stem)) = true) by (apply Z.ltb_lt; lia).
  rewrite Hlt. unfold slice.
  change (-1 + 1) with 0. rewrite Z.sub_0_r, Nat2Z.id.
  change (drop (Z.to_nat 0) (stem ++ DOT :: ext)) with (stem ++ DOT :: ext).
  rewrite !take_app_length.
  assert (Hx : existsb (fun c => negb (c =? DOT)%N) stem = true).
  { apply existsb_exists. apply Exists_exists in Hex as (c & Hin & Hc).
    exists c. split; [now apply list_elem_of_In |].
    now apply negb_true_iff, N.eqb_neq. }
  rewrite Hx. cbn [andb]. now rewrite drop_app_length.
Qed.

(** X3: a name that is already clean goes through unchanged, whatever the
    length of its extension: the limit of 255 characters only shortens the
    part before the last dot, to 250 characters. *)
Theorem sanitize_filename_clean_name uw t (stem ext : str) :
  Forall (fun c => kept_char uw c = true) stem ->
  Exists (fun c => c <> DOT) stem ->
  (length stem <= 250)%nat ->
  Forall (fun c => kept_char uw c = true /\ c <> DOT) ext ->
  sanitize_filename uw t (stem ++ DOT :: ext) = stem ++ DOT :: ext.
Proof.
  intros Hstem Hex Hlen Hext.
  assert (Hall : Forall (fun c => kept_char uw c = true) (stem ++ DOT :: ext)).
  { apply Forall_app. split; [assumption |].
    constructor; [reflexivity |].
    eapply Forall_impl; [exact Hext | now intros c [H _]]. }
  assert (Hslash : forall s : str,
            Forall (fun c => kept_char uw c = true) s -> SLASH ∉ s).
  { intros s Hs Hin. rewrite Forall_forall in Hs.
    now apply (kept_char_not_slash uw SLASH (Hs _ Hin)). }
  assert (Hdot : DOT ∉ ext).
  { intros Hin. rewrite Forall_forall in Hext. now destruct (Hext _ Hin). }
  assert (Hne : exists c s, stem = c :: s).
  { destruct stem as [|c s]; [inversion Hex | eauto]. }
  destruct Hne as (c & s & Hcs).
  unfold sanitize_filename.
  rewrite Path_name_plain; [| now apply Hslash | rewrite Hcs; discriminate
                            | rewrite Hcs; destruct s; discriminate].
  rewrite filter_all
    by (eapply Forall_impl; [exact Hall | apply kept_char_safe]).
  replace (map _ (stem ++ DOT :: ext)) with (stem ++ DOT :: ext).
  2:{ symmetry. rewrite <- (map_id (stem ++ DOT :: ext)) at 2.
      apply map_ext_Forall.
      eapply Forall_impl; [exact Hall |]. intros d Hd. cbv beta.
      now rewrite (kept_char_not_space uw d Hd). }
  rewrite splitext_last_dot; try assumption.
  2:{ apply Hslash. eapply Forall_impl; [exact Hstem | auto]. }
  2:{ apply Hslash. eapply Forall_impl; [exact Hext | now intros d [H _]]. }
  rewrite (take_ge stem) by lia.
  rewrite Hcs. cbn [app]. destruct (255 <? _); reflexivity.
Qed.

Lemma sanitize_filename_clean_name_witness :
  sanitize_filename ascii_only 0 (py "a" ++ DOT :: replicate 300 120%N)
  = py "a" ++ DOT :: replicate 300 120%N.
Proof.
  apply (sanitize_filename_clean_name ascii_only 0 (py "a")
           (replicate 300 120%N)).
  - repeat constructor.
  - constructor. discriminate.
  - vm_compute. lia.
  - apply Forall_replicate. split; [reflexivity | discriminate].
Defined.

(** ** Staging paths *)

Lemma sanitize_filename_nonempty uw t filename :
  sanitize_filename uw t filename <> [].
Proof.
  unfold sanitize_filename.
  destruct filename as [|c0 rest]; [discriminate |].
  destruct (if 255 <? _ then _ else _); discriminate.
Qed.

Lemma digits_nonempty u : u <> Nil -> digits u <> [].
Proof. destruct u; [congruence | discriminate ..]. Qed.

Lemma str_of_int_nonempty z : str_of_int z <> [].
Proof.
  unfold str_of_int. destruct z as [|p|p]; cbn; [discriminate | | discriminate].
  apply digits_nonempty, DecimalPos.Unsigned.to_uint_nonnil.
Qed.

Lemma str_of_int_no_slash z : SLASH ∉ str_of_int z.
Proof. apply str_of_int_avoids; unfold is_digit, SLASH, MINUS; lia. Qed.

Lemma path_join_relative (a b : str) :
  b <> [] -> SLASH ∉ b -> path_join a b = join_prefix a ++ b.
Proof.
  intros Hne Hb. unfold path_join, join_prefix.
  destruct b as [|c n]; [congruence |].
  destruct (N.eqb_spec c SLASH) as [E|_].
  - exfalso. apply Hb. rewrite E. left.
  - destruct (last a) as [d|]; [| reflexivity].
    destruct (d =? SLASH)%N; [reflexivity |].
    now rewrite <- app_assoc.
Qed.

Lemma join_prefix_after (a b : str) :
  b <> [] -> SLASH ∉ b -> join_prefix (a ++ b) = a ++ b ++ [SLASH].
Proof.
  intros Hne Hb. unfold join_prefix.
  destruct (last (a ++ b)) as [d|] eqn:E.
  - assert (Hd : d ∈ b).
    { destruct b as [|c n] using rev_ind; [congruence |].
      rewrite app_assoc, last_snoc in E. injection E as <-.
      rewrite elem_of_app. right. now left. }
    destruct (N.eqb_spec d SLASH) as [Ed|_].
    + exfalso. apply Hb. now rewrite <- Ed.
    + now rewrite <- app_assoc.
  - apply last_None in E. apply app_eq_nil in E as [_ E]. congruence.
Qed.

Lemma job_file_path_shape uw config env m media :
  job_file_path uw config env m media
  = join_prefix (DOWNLOAD_DIR config) ++ str_of_int (from_user m)
    ++ SLASH :: job_file_name uw env media.
Proof.
  unfold job_file_path.
  assert (Hn : SLASH ∉ job_file_name uw env media).
  { intros Hin. unfold job_file_name in Hin.
    pose proof (sanitize_filename_kept uw (time_at env 107)
                  match file_name media with
                  | Some (c :: n) => c :: n
                  | _ => py "file_" ++ str_of_int (int_of_float (time_at env 280))
                  end) as H.
    rewrite Forall_forall in H.
    now apply (kept_char_not_slash uw SLASH (H _ Hin)). }
  rewrite (path_join_relative (DOWNLOAD_DIR config))
    by auto using str_of_int_nonempty, str_of_int_no_slash.
  rewrite path_join_relative;
    [| apply sanitize_filename_nonempty | exact Hn].
  rewrite join_prefix_after
    by auto using str_of_int_nonempty, str_of_int_no_slash.
  now rewrite <- !app_assoc.
Qed.

(** X4: the staging paths of two owners are never the same, whatever the
    names of the files: a job cannot touch the file of another owner's
    job. *)
Theorem job_file_path_owner uw config env1 env2 m1 m2 media1 media2 :
  job_file_path uw config env1 m1 media1
  = job_file_path uw config env2 m2 media2 ->
  from_user m1 = from_user m2.
Proof.
  rewrite !job_file_path_shape. intros H.
  apply app_inv_head in H.
  apply cut_at_first in H as [H _]; auto using str_of_int_no_slash.
  now apply str_of_int_inj.
Qed.

Lemma job_file_path_owner_witness :
  from_user a_submission = from_user (cancel_command a_submission).
Proof.
  apply (job_file_path_owner ascii_only unset_Config calm calm a_submission
           (cancel_command a_submission) a_document a_document).
  reflexivity.
Defined.

(** ** More on [human_size] *)

Lemma human_size_positive x :
  (0 < x)%Q ->
  human_size x
  = match py_index size_name (floor_log_1024 x) with
    | Some unit_name =>
        Returns (repr_hundredths
                   (round_half_even (x / Qpower 1024 (floor_log_1024 x) * 100))
                 ++ [SPACE] ++ unit_name)
    | None => Raises (Exc IndexError)
    end.
Proof.
  intros Hx. unfold human_size.
  destruct (Qeq_bool x 0) eqn:E0.
  - apply Qeq_bool_eq in E0. rewrite E0 in Hx. now apply Qlt_irrefl in Hx.
  - destruct (Qle_bool x 0) eqn:E1; [| reflexivity].
    apply Qle_bool_iff in E1. exfalso.
    exact (Qlt_irrefl _ (Qlt_le_trans _ _ _ Hx E1)).
Qed.

Lemma round_half_even_whole (x : Q) (z : Z) :
  x == inject_Z z -> round_half_even x = z.
Proof.
  intros H. unfold round_half_even.
  assert (Hf : Qfloor x = z) by (rewrite H; apply Qfloor_Z).
  rewrite Hf.
  assert (Hc : (x - inject_Z z ?= 1 # 2)%Q = Lt).
  { apply Qlt_alt. rewrite H. unfold Qminus. rewrite Qplus_opp_r. reflexivity. }
  now rewrite Hc.
Qed.

(** X5: a whole number of bytes below 1024 is shown as such, with one
    decimal and the unit [B]. *)
Theorem human_size_bytes (n : Z) :
  1 <= n < 1024 ->
  human_size (inject_Z n) = Returns (str_of_int n ++ py ".0 B").
Proof.
  intros Hn.
  rewrite human_size_positive
    by (change 0%Q with (inject_Z 0); rewrite <- Zlt_Qlt; lia).
  assert (Hi : floor_log_1024 (inject_Z n) = 0).
  { unfold floor_log_1024.
    assert (H1 : Qle_bool 1 (inject_Z n) = true).
    { apply Qle_bool_iff. change 1%Q with (inject_Z 1).
      rewrite <- Zle_Qle. lia. }
    rewrite H1, Qfloor_Z.
    apply Z.div_small. split; [apply Z.log2_nonneg |].
    apply Z.log2_lt_pow2; lia. }
  rewrite Hi. cbn [py_index size_name Z.leb Z.compare Z.to_nat lookup
                   list_lookup].
  rewrite (round_half_even_whole _ (n * 100)).
  2:{ unfold Qeq, Qdiv, Qmult, Qinv, inject_Z. simpl. lia. }
  unfold repr_hundredths.
  rewrite Z.abs_eq by lia.
  rewrite Z.mod_mul, Z.div_mul by lia.
  assert (Hneg : (n * 100 <? 0) = false) by (apply Z.ltb_ge; lia).
  rewrite Hneg. cbn [app].
  change (size_name !! Z.to_nat 0) with (Some (py "B")).
  change (0 `mod` 10 =? 0) with true.
  change (str_of_int (0 `div` 10)) with (py "0").
  cbv iota. now rewrite <- app_assoc.
Qed.

Lemma human_size_bytes_witness :
  human_size (inject_Z 512) = Returns (str_of_int 512 ++ py ".0 B").
Proof. apply (human_size_bytes 512). lia. Defined.

(** X6: a size of 1024^6 bytes or more finds no unit: the index is out of
    the range of [size_name].  (From 1024^102 on [math.pow] overflows
    first.) *)
Theorem human_size_index_error (x : Q) :
  (inject_Z (1024 ^ 6) <= x)%Q -> (x < inject_Z (1024 ^ 102))%Q ->
  human_size x = Raises (Exc IndexError).
Proof.
  intros Hx _.
  assert (Hpos : (0 < x)%Q).
  { eapply Qlt_le_trans; [| exact Hx]. reflexivity. }
  rewrite (human_size_positive x Hpos).
  assert (Hi : 6 <= floor_log_1024 x).
  { unfold floor_log_1024.
    assert (H1 : Qle_bool 1 x = true).
    { apply Qle_bool_iff. eapply Qle_trans; [| exact Hx]. discriminate. }
    rewrite H1.
    assert (Hf : 1024 ^ 6 <= Qfloor x).
    { rewrite <- (Qfloor_Z (1024 ^ 6)). now apply Qfloor_resp_le. }
    apply Z.div_le_lower_bound; [lia |].
    change (10 * 6) with (Z.log2 (1024 ^ 6)).
    now apply Z.log2_le_mono. }
  unfold py_index.
  destruct (Z.leb_spec 0 (floor_log_1024 x)); [| lia].
  rewrite lookup_ge_None_2; [reflexivity |].
  change (length size_name) with 6%nat. lia.
Qed.

Lemma human_size_index_error_witness :
  human_size (inject_Z (1024 ^ 6)) = Raises (Exc IndexError).
Proof.
  apply (human_size_index_error (inject_Z (1024 ^ 6))).
  - apply Qle_refl.
  - reflexivity.
Defined.

(** X7: a positive size below one byte is shown in petabytes: the index
    [-1] that [math.floor] gives counts from the end of [size_name]. *)
Theorem human_size_below_one_byte (x : Q) :
  (1 # 1024 <= x)%Q -> (x < 1)%Q ->
  human_size x
  = Returns (repr_hundredths (round_half_even (x / (1 # 1024) * 100))
             ++ py " PB").
Proof.
  intros Hlo Hhi.
  assert (Hpos : (0 < x)%Q).
  { eapply Qlt_le_trans; [| exact Hlo]. reflexivity. }
  rewrite (human_size_positive x Hpos).
  assert (Hi : floor_log_1024 x = -1).
  { unfold floor_log_1024.
    assert (H1 : Qle_bool 1 x = false).
    { destruct (Qle_bool 1 x) eqn:E; [| reflexivity].
      apply Qle_bool_iff in E. exfalso.
      exact (Qlt_irrefl _ (Qle_lt_trans _ _ _ E Hhi)). }
    rewrite H1.
    assert (Hinv : (1 < / x)%Q /\ (/ x <= 1024)%Q).
    { split.
      - change 1%Q with (/ 1)%Q at 1.
        exact (proj1 (Qinv_lt_contravar x 1 Hpos eq_refl) Hhi).
      - apply Qle_shift_inv_r; [assumption |].
        apply (Qle_trans _ (1024 * (1 # 1024))); [discriminate |].
        exact (proj2 (Qmult_le_l _ _ 1024 eq_refl) Hlo). }
    destruct Hinv as [Hgt Hle].
    assert (Hc : 2 <= Qceiling (/ x) <= 1024).
    { split.
      - assert (H : (inject_Z 1 < inject_Z (Qceiling (/ x)))%Q).
        { eapply Qlt_le_trans; [exact Hgt | apply Qle_ceiling]. }
        rewrite <- Zlt_Qlt in H. lia.
      - change 1024 with (Qceiling (inject_Z 1024)).
        now apply Qceiling_resp_le. }
    assert (Hl : 1 <= Z.log2_up (Qceiling (/ x)) <= 10).
    { split.
      - change 1 with (Z.log2_up 2). apply Z.log2_up_le_mono. lia.
      - change 10 with (Z.log2_up 1024). apply Z.log2_up_le_mono. lia. }
    assert (Hq : (Z.log2_up (Qceiling (/ x)) + 9) / 10 = 1).
    { symmetry.
      apply (Z.div_unique _ _ _ (Z.log2_up (Qceiling (/ x)) - 1)); lia. }
    now rewrite Hq. }
  rewrite Hi. reflexivity.
Qed.

Lemma human_size_below_one_byte_witness :
  human_size (1 # 2)
  = Returns (repr_hundredths (round_half_even ((1 # 2) / (1 # 1024) * 100))
             ++ py " PB").
Proof.
  apply (human_size_below_one_byte (1 # 2)).
  - vm_compute. discriminate.
  - reflexivity.
Defined.

(** ** More on the startup *)

Lemma missing_attrs_complete config :
  ~ mandatory_absent config -> missing_attrs config = [].
Proof.
  unfold mandatory_absent. intros H.
  assert (H1 : API_ID config <> 0) by tauto.
  assert (H2 : API_HASH config <> []) by tauto.
  assert (H3 : BOT_TOKEN config <> []) by tauto.
  assert (H4 : WASABI_ACCESS_KEY config <> []) by tauto.
  assert (H5 : WASABI_SECRET_KEY config <> []) by tauto.
  assert (H6 : WASABI_BUCKET config <> []) by tauto.
  unfold missing_attrs, required_attrs.
  repeat (rewrite filter_cons_False;
    [| cbn; unfold str_eqb;
       rewrite ?bool_decide_eq_false_2 by assumption;
       rewrite ?(proj2 (Z.eqb_neq _ _) H1); discriminate ]).
  reflexivity.
Qed.

Lemma load_Config_unset_variable int_of_str getenv config name :
  In name required_attrs -> getenv name = None ->
  load_Config int_of_str getenv = Returns config ->
  mandatory_absent config.
Proof.
  intros Hin Hnone Hload. unfold load_Config in Hload.
  unfold required_attrs in Hin. cbn in Hin.
  destruct Hin as [<-|[<-|[<-|[<-|[<-|[<-|[]]]]]]]; rewrite ?Hnone in Hload;
    try (destruct (match getenv "API_ID"%string with
                   | Some s => int_of_str s
                   | None => Some 0
                   end); [| discriminate]);
    injection Hload as <-; unfold mandatory_absent; cbn; auto 10.
Qed.

(** X8: when one of the six mandatory environment variables is unset,
    the configuration that config.py builds makes [main] stop at the
    validation: the error is logged as fatal, the bot is not run, and
    [main] returns. *)
Theorem startup_unset_variable int_of_str getenv config name G env w :
  In name required_attrs -> getenv name = None ->
  load_Config int_of_str getenv = Returns config ->
  exec_handler G env (main config) w
  = (record (Logged (LogFatal (ValueError
       (py "Missing configuration: "
        ++ str_join (py ", ") (map py (missing_attrs config)))))) w,
     Returns tt).
Proof.
  intros Hin Hnone Hload.
  pose proof (missing_attrs_nonempty config
                (load_Config_unset_variable _ _ _ _ Hin Hnone Hload)) as H.
  unfold exec_handler, main, WasabiUploadBot_init, validate_config.
  destruct (missing_attrs config) as [|a l]; [congruence |]. reflexivity.
Qed.

Lemma startup_unset_variable_witness :
  exec_handler module_globals calm (main unset_Config) boot
  = (record (Logged (LogFatal (ValueError
       (py "Missing configuration: "
        ++ str_join (py ", ") (map py (missing_attrs unset_Config)))))) boot,
     Returns tt).
Proof.
  apply (startup_unset_variable (fun _ => None) (fun _ => None) unset_Config
           "BOT_TOKEN" module_globals calm boot).
  - vm_compute. tauto.
  - reflexivity.
  - reflexivity.
Defined.

(** X9: a complete configuration passes the validation: the download
    directory is made and the success is logged; the only failure left is
    the one of [os.makedirs]. *)
Theorem validate_config_complete G env config w :
  ~ mandatory_absent config ->
  exec_handler G env (validate_config config) w
  = match ext_at env 85 with
    | Answer _ =>
        (record (Logged LogConfigValidated)
           (record (MadeDirs (DOWNLOAD_DIR config)) w), Returns tt)
    | Fails e => (w, Raises (Exc e))
    end.
Proof.
  intros H. unfold exec_handler, validate_config.
  rewrite (missing_attrs_complete config H). cbn.
  destruct (ext_at env 85); reflexivity.
Qed.

Lemma validate_config_complete_witness :
  exec_handler module_globals calm (validate_config complete_Config) boot
  = (record (Logged LogConfigValidated)
       (record (MadeDirs (DOWNLOAD_DIR complete_Config)) boot), Returns tt).
Proof.
  apply (validate_config_complete module_globals calm complete_Config boot).
  vm_compute. intuition discriminate.
Defined.





(** ** A program logic for coroutines *)

Section Holds.

Variable G : list string.
Variable env : Env.
Variable run_callback : callback -> tick -> World -> World.
Variable on_cancel : World -> World.

Abbreviation run := (exec_with G env run_callback on_cancel).
Abbreviation waits := (suspensions G env run_callback on_cancel).
Notation "'H[' I , Q ']'" := (holds G env run_callback on_cancel I Q).

Lemma exec_bind {A B} (p : prog A) (f : A -> prog B) w :
  run (p ≫= f) w
  = match run p w with
    | (w', Returns a) => run (f a) w'
    | (w', Raises e) => (w', Raises e)
    end.
Proof.
  unfold mbind, prog_bind. revert w.
  induction p as [a|e|X g k IH|l k IH|n k IH|l c k IH|l c k IH|k IH];
    intros w; simpl; auto.
  destruct (g w) as [w' x]. apply IH.
Qed.

Lemma waits_bind {A B} (p : prog A) (f : A -> prog B) w :
  waits (p ≫= f) w
  = waits p w ++ match run p w with
                 | (w', Returns a) => waits (f a) w'
                 | (w', Raises e) => []
                 end.
Proof.
  unfold mbind, prog_bind. revert w.
  induction p as [a|e|X g k IH|l k IH|n k IH|l c k IH|l c k IH|k IH];
    intros w; simpl; auto.
  - destruct (g w) as [w' x]. apply IH.
  - rewrite IH. now rewrite app_assoc.
Qed.

Lemma exec_try_except {A} (p : prog A) h w :
  run (try_except p h) w
  = match run p w with
    | (w', Raises e) =>
        match h e with
        | Some q => run q w'
        | None => (w', Raises e)
        end
    | (w', Returns a) => (w', Returns a)
    end.
Proof.
  revert w.
  induction p as [a|e|X g k IH|l k IH|n k IH|l c k IH|l c k IH|k IH];
    intros w; simpl; auto.
  - destruct (h e); reflexivity.
  - destruct (g w) as [w' x]. apply IH.
Qed.

Lemma waits_try_except {A} (p : prog A) h w :
  waits (try_except p h) w
  = waits p w ++ match run p w with
                 | (w', Raises e) =>
                     match h e with
                     | Some q => waits q w'
                     | None => []
                     end
                 | (w', Returns a) => []
                 end.
Proof.
  revert w.
  induction p as [a|e|X g k IH|l k IH|n k IH|l c k IH|l c k IH|k IH];
    intros w; simpl; auto.
  - destruct (h e); reflexivity.
  - destruct (g w) as [w' x]. apply IH.
  - rewrite IH. now rewrite app_assoc.
Qed.

Lemma exec_try_finally {A} (p : prog A) f w :
  run (try_finally p f) w
  = match run p w with
    | (w', r) =>
        match run f w' with
        | (w'', Returns _) => (w'', r)
        | (w'', Raises e) => (w'', Raises e)
        end
    end.
Proof.
  revert w.
  induction p as [a|e|X g k IH|l k IH|n k IH|l c k IH|l c k IH|k IH];
    intros w; simpl; auto.
  - change (bind f (fun _ => Ret a)) with (f ≫= (fun _ : unit => Ret a)).
    rewrite exec_bind. destruct (run f w) as [w' [[]|e]]; reflexivity.
  - change (bind f (fun _ => Raise e)) with (f ≫= (fun _ : unit => @Raise A e)).
    rewrite exec_bind. destruct (run f w) as [w' [[]|e']]; reflexivity.
  - destruct (g w) as [w' x]. apply IH.
Qed.

Lemma waits_try_finally {A} (p : prog A) f w :
  waits (try_finally p f) w = waits p w ++ waits f (fst (run p w)).
Proof.
  revert w.
  induction p as [a|e|X g k IH|l k IH|n k IH|l c k IH|l c k IH|k IH];
    intros w; simpl; auto.
  - change (bind f (fun _ => Ret a)) with (f ≫= (fun _ : unit => Ret a)).
    rewrite waits_bind. destruct (run f w) as [w' [[]|e]]; simpl;
      now rewrite app_nil_r.
  - change (bind f (fun _ => Raise e)) with (f ≫= (fun _ : unit => @Raise A e)).
    rewrite waits_bind. destruct (run f w) as [w' [[]|e']]; simpl;
      now rewrite app_nil_r.
  - destruct (g w) as [w' x]. apply IH.
  - rewrite IH. now rewrite app_assoc.
Qed.

Lemma holds_bind {A B} I Q (p : prog A) (f : A -> prog B) w :
  H[I, fun w1 r => match r with
                   | Returns a => H[I, Q] (f a) w1
                   | Raises e => Q w1 (Raises e)
                   end] p w ->
  H[I, Q] (p ≫= f) w.
Proof.
  unfold holds. rewrite waits_bind, exec_bind.
  destruct (run p w) as [w1 [a|e]]; simpl; intros [Hp Hq].
  - destruct Hq as [Hf Hq]. split; [apply Forall_app; auto | exact Hq].
  - split; [now rewrite app_nil_r | exact Hq].
Qed.

Lemma holds_try_except {A} I Q (p : prog A) h w :
  H[I, fun w1 r => match r with
                   | Raises e =>
                       match h e with
                       | Some q => H[I, Q] q w1
                       | None => Q w1 (Raises e)
                       end
                   | Returns a => Q w1 (Returns a)
                   end] p w ->
  H[I, Q] (try_except p h) w.
Proof.
  unfold holds. rewrite waits_try_except, exec_try_except.
  destruct (run p w) as [w1 [a|e]]; simpl; intros [Hp Hq].
  - split; [now rewrite app_nil_r | exact Hq].
  - destruct (h e) as [q|].
    + destruct Hq as [Hf Hq]. split; [apply Forall_app; auto | exact Hq].
    + split; [now rewrite app_nil_r | exact Hq].
Qed.

Lemma holds_try_finally {A} I Q (p : prog A) f w :
  H[I, fun w1 r =>
         H[I, fun w2 r2 => match r2 with
                           | Returns _ => Q w2 r
                           | Raises e => Q w2 (Raises e)
                           end] f w1] p w ->
  H[I, Q] (try_finally p f) w.
Proof.
  unfold holds. rewrite waits_try_finally, exec_try_finally.
  destruct (run p w) as [w1 r]; simpl. intros [Hp [Hf Hq]].
  split; [apply Forall_app; auto |].
  destruct (run f w1) as [w2 [[]|e]]; exact Hq.
Qed.

(** A program that does not wait. *)
Lemma holds_at_once {A} I (Q : World -> result A -> Prop) (p : prog A) w w' r :
  waits p w = [] -> run p w = (w', r) -> Q w' r -> H[I, Q] p w.
Proof. unfold holds. intros -> ->. split; [constructor | assumption]. Qed.

Lemma holds_Ret {A} I (Q : World -> result A -> Prop) a w :
  Q w (Returns a) -> H[I, Q] (Ret a) w.
Proof. now apply holds_at_once. Qed.

Lemma holds_Raise {A} I (Q : World -> result A -> Prop) e w :
  Q w (Raises e) -> H[I, Q] (Raise e) w.
Proof. now apply holds_at_once. Qed.

Lemma holds_read {X} I (Q : World -> result X -> Prop) (f : World -> X) w :
  Q w (Returns (f w)) -> H[I, Q] (read f) w.
Proof. now apply holds_at_once. Qed.

Lemma holds_write I (Q : World -> result unit -> Prop) f w :
  Q (f w) (Returns tt) -> H[I, Q] (write f) w.
Proof. now apply holds_at_once. Qed.

Lemma holds_logger I (Q : World -> result unit -> Prop) l w :
  Q (record (Logged l) w) (Returns tt) -> H[I, Q] (logger l) w.
Proof. now apply holds_at_once. Qed.

Lemma holds_time_time I (Q : World -> result QArith_base.Q -> Prop) l w :
  Q w (Returns (time_at env l)) -> H[I, Q] (time_time l) w.
Proof. now apply holds_at_once. Qed.

Lemma holds_lift {A} I (Q : World -> result A -> Prop) (r : result A) w :
  Q w r -> H[I, Q] (lift r) w.
Proof. destruct r; now apply holds_at_once. Qed.

Lemma holds_load_global I (Q : World -> result unit -> Prop) n w :
  Q w (if bool_decide (n ∈ G) then Returns tt else Raises (Exc (NameError n))) ->
  H[I, Q] (load_global n) w.
Proof.
  intros HQ. unfold holds, load_global. simpl.
  destruct (bool_decide (n ∈ G)); (split; [constructor | exact HQ]).
Qed.

Lemma holds_ext I (Q : World -> result str -> Prop) l c w :
  Q (ext_effect c (ext_at env l) w)
    (match ext_at env l with
     | Answer v => Returns v
     | Fails e => Raises (Exc e)
     end) ->
  H[I, Q] (ext l c) w.
Proof.
  intros HQ. unfold holds, ext. simpl.
  destruct (ext_at env l); (split; [constructor | exact HQ]).
Qed.

Lemma holds_create_task I (Q : World -> result nat -> Prop) w :
  Q (with_created S w) (Returns (tasks_created w)) -> H[I, Q] create_task w.
Proof. now apply holds_at_once. Qed.

Lemma holds_os_path_exists I (Q : World -> result bool -> Prop) path w :
  Q w (Returns (bool_decide (path ∈ disk w))) -> H[I, Q] (os_path_exists path) w.
Proof. now apply holds_at_once. Qed.

Lemma holds_os_remove I (Q : World -> result unit -> Prop) path w :
  Q (record (Removed path) (with_disk (fun d => d ∖ {[path]}) w)) (Returns tt) ->
  H[I, Q] (os_remove path) w.
Proof. now apply holds_at_once. Qed.

Lemma holds_del_user_tasks I (Q : World -> result unit -> Prop) u w :
  (if bool_decide (is_Some (user_tasks w !! u))
   then Q (record (TaskDeleted u) (with_tasks (delete u) w)) (Returns tt)
   else Q w (Raises (Exc KeyError))) ->
  H[I, Q] (del_user_tasks u) w.
Proof.
  intros HQ. unfold del_user_tasks. apply holds_bind, holds_read.
  destruct (bool_decide _); [now apply holds_write | now apply holds_Raise].
Qed.

Lemma holds_del_user_status I (Q : World -> result unit -> Prop) u w :
  (if bool_decide (is_Some (user_status w !! u))
   then Q (record (StatusDeleted u) (with_status (delete u) w)) (Returns tt)
   else Q w (Raises (Exc KeyError))) ->
  H[I, Q] (del_user_status u) w.
Proof.
  intros HQ. unfold del_user_status. apply holds_bind, holds_read.
  destruct (bool_decide _); [now apply holds_write | now apply holds_Raise].
Qed.

Lemma holds_await I (Q : World -> result unit -> Prop) l c w :
  Forall (fun w' => I (l, w')) (await_states env run_callback c w) ->
  Q (resume env run_callback on_cancel c (wake_at env l) w)
    (match wake_at env l with
     | Woken => Returns tt
     | Thrown e => Raises (Exc e)
     | Cancelled => Raises CancelledError
     end) ->
  H[I, Q] (await l c) w.
Proof.
  intros HI HQ. unfold holds, await. simpl. split.
  - rewrite Forall_app. split.
    + now rewrite Forall_fmap.
    + destruct (wake_at env l); constructor.
  - destruct (wake_at env l); exact HQ.
Qed.

Lemma holds_await_reply I (Q : World -> result unit -> Prop) l c w :
  Forall (fun w' => I (l, w')) (await_states env run_callback c w) ->
  Q (resume env run_callback on_cancel c (wake_at env l) w)
    (match wake_at env l with
     | Thrown e => Raises (Exc e)
     | _ => Returns tt
     end) ->
  H[I, Q] (await_reply l c) w.
Proof.
  intros HI HQ. unfold holds, await_reply. simpl. split.
  - rewrite Forall_app. split.
    + now rewrite Forall_fmap.
    + destruct (wake_at env l); constructor.
  - destruct (wake_at env l); exact HQ.
Qed.

Lemma holds_await_task {A} I (Q : World -> result A -> Prop) l task
    (p : prog A) w :
  I (l, w) ->
  match wake_at env l with
  | Cancelled => Q (on_cancel w) (Raises CancelledError)
  | _ => H[I, Q] p w
  end ->
  H[I, Q] (await_task l task p) w.
Proof.
  intros HI HQ. unfold holds, await_task in *. simpl.
  destruct (wake_at env l); simpl.
  - destruct HQ as [Hs HQ]. split; [constructor; assumption | exact HQ].
  - destruct HQ as [Hs HQ]. split; [constructor; assumption | exact HQ].
  - split; [repeat constructor; assumption | exact HQ].
Qed.

End Holds.

(** What [holds] says of a job: of its final state and result, and of its
    suspension points. *)
Lemma holds_exec {A} G env message I (Q : World -> result A -> Prop) p w :
  holds G env (run_progress_bar G) (run_cancel G env message) I Q p w ->
  Q (fst (exec G env message p w)) (snd (exec G env message p w)).
Proof. intros [_ H]. exact H. Qed.


(** Line 280: the name of the file is computed without any effect. *)
Lemma holds_process_upload G env rc oc I (Q : World -> result unit -> Prop)
    uw gt config message media w :
  holds G env rc oc I Q
    (process_upload_from uw gt config message media
       (job_original_name env media)) w ->
  holds G env rc oc I Q (process_upload uw gt config message media) w.
Proof.
  unfold process_upload, job_original_name.
  destruct (file_name media) as [[|c n]|]; intros H; apply holds_bind.
  - apply holds_bind, holds_time_time. now apply holds_Ret.
  - now apply holds_Ret.
  - apply holds_bind, holds_time_time. now apply holds_Ret.
Qed.

Arguments job_original_name : simpl never.

Lemma job_file_path_eq uw config env message media :
  job_file_path uw config env message media
  = path_join (path_join (DOWNLOAD_DIR config) (str_of_int (from_user message)))
              (sanitize_filename uw (time_at env 107)
                 (job_original_name env media)).
Proof. reflexivity. Qed.

(** ** Symbolic execution of a job *)

(** [cancel_handler], run to its end. *)
Lemma cancel_handler_run G env m w :
  exec_handler G env (cancel_handler m) w
  = match user_tasks w !! from_user m with
    | Some task =>
        (cancel_reply env m (cancel_state m task w),
         match wake_at env 207 with
         | Thrown e => Raises (Exc e)
         | _ => Returns tt
         end)
    | None => replied env 209 (chat m) TxtNothingToCancel w
    end.
Proof.
  unfold exec_handler, cancel_handler, cancel_state, cancel_reply, replied.
  cbn. destruct (user_tasks w !! from_user m) as [task|] eqn:H; cbn.
  - rewrite H. cbn.
    destruct (user_status w !! from_user m) as [st|] eqn:Hst; cbn.
    + destruct (str_eqb (st_file_path st) []) eqn:He; cbn.
      * rewrite Hst. cbn. destruct (wake_at env 207); reflexivity.
      * destruct (bool_decide (st_file_path st ∈ disk w)) eqn:Hd; cbn;
          rewrite Hst; cbn; destruct (wake_at env 207); reflexivity.
    + destruct (wake_at env 207); reflexivity.
  - destruct (wake_at env 209); reflexivity.
Qed.

Lemma run_cancel_cases G env m w :
  run_cancel G env m w
  = match user_tasks w !! from_user m with
    | Some task => cancel_reply env m (cancel_state m task w)
    | None => cancel_idle env m w
    end.
Proof.
  unfold run_cancel.
  change (from_user m) with (from_user (cancel_command m)).
  rewrite cancel_handler_run.
  destruct (user_tasks w !! from_user (cancel_command m)); [reflexivity |].
  unfold replied, cancel_idle. cbn.
  destruct (wake_at env 209); reflexivity.
Qed.

Arguments cancel_reply : simpl never.
Arguments cancel_idle : simpl never.

Lemma cancel_reply_user_tasks env m w :
  user_tasks (cancel_reply env m w) = user_tasks w.
Proof. unfold cancel_reply. destruct (wake_at env 207); reflexivity. Qed.

Lemma cancel_reply_user_status env m w :
  user_status (cancel_reply env m w) = user_status w.
Proof. unfold cancel_reply. destruct (wake_at env 207); reflexivity. Qed.

Lemma cancel_reply_disk env m w : disk (cancel_reply env m w) = disk w.
Proof. unfold cancel_reply. destruct (wake_at env 207); reflexivity. Qed.

Lemma cancel_reply_objects env m w :
  objects (cancel_reply env m w) = objects w.
Proof. unfold cancel_reply. destruct (wake_at env 207); reflexivity. Qed.

Lemma cancel_reply_tasks_created env m w :
  tasks_created (cancel_reply env m w) = tasks_created w.
Proof. unfold cancel_reply. destruct (wake_at env 207); reflexivity. Qed.

Lemma cancel_reply_count f env m w :
  (forall c t, f (Sent c t) = false) ->
  count_events f (journal (cancel_reply env m w)) = count_events f (journal w).
Proof.
  intros Hf. unfold cancel_reply, count_events.
  destruct (wake_at env 207); cbn; rewrite ?Hf; reflexivity.
Qed.

Lemma cancel_idle_user_tasks env m w :
  user_tasks (cancel_idle env m w) = user_tasks w.
Proof. unfold cancel_idle. destruct (wake_at env 209); reflexivity. Qed.

Lemma cancel_idle_user_status env m w :
  user_status (cancel_idle env m w) = user_status w.
Proof. unfold cancel_idle. destruct (wake_at env 209); reflexivity. Qed.

Lemma cancel_idle_disk env m w : disk (cancel_idle env m w) = disk w.
Proof. unfold cancel_idle. destruct (wake_at env 209); reflexivity. Qed.

Lemma cancel_idle_objects env m w :
  objects (cancel_idle env m w) = objects w.
Proof. unfold cancel_idle. destruct (wake_at env 209); reflexivity. Qed.

Lemma cancel_idle_tasks_created env m w :
  tasks_created (cancel_idle env m w) = tasks_created w.
Proof. unfold cancel_idle. destruct (wake_at env 209); reflexivity. Qed.

Lemma cancel_idle_count f env m w :
  (forall c t, f (Sent c t) = false) ->
  count_events f (journal (cancel_idle env m w)) = count_events f (journal w).
Proof.
  intros Hf. unfold cancel_idle, count_events.
  destruct (wake_at env 209); cbn; rewrite ?Hf; reflexivity.
Qed.

Lemma path_join_nonempty a c n : path_join a (c :: n) <> [].
Proof.
  unfold path_join. destruct (c =? SLASH)%N; [discriminate |].
  destruct (last a) as [d|] eqn:E; [| discriminate].
  destruct (d =? SLASH)%N; intros H; apply app_eq_nil in H as [_ H];
    discriminate.
Qed.

Lemma staging_path_nonempty uw a t orig :
  str_eqb (path_join a (sanitize_filename uw t orig)) [] = false.
Proof.
  unfold str_eqb. apply bool_decide_eq_false.
  pose proof (sanitize_filename_nonempty uw t orig) as Hne.
  destruct (sanitize_filename _ _ _) as [|c n]; [congruence |].
  apply path_join_nonempty.
Qed.

(** [human_size] raises nothing but [ValueError] and [IndexError]. *)
Lemma human_size_raises x e :
  human_size x = Raises e -> exists e', e = Exc e'.
Proof.
  unfold human_size. destruct (Qeq_bool x 0); [discriminate |].
  destruct (Qle_bool x 0); [intros [= <-]; eauto |].
  destruct (py_index _ _); [discriminate |]. intros [= <-]; eauto.
Qed.

Lemma mem_added (x : str) (X : gset str) : bool_decide (x ∈ {[x]} ∪ X) = true.
Proof.
  apply bool_decide_eq_true_2, elem_of_union. left.
  now apply elem_of_singleton.
Qed.

Lemma mem_removed (x : str) (X : gset str) : bool_decide (x ∈ X ∖ {[x]}) = false.
Proof.
  apply bool_decide_eq_false_2. rewrite elem_of_difference, elem_of_singleton.
  tauto.
Qed.

Lemma mem_absent (x : str) (X : gset str) : x ∉ X -> bool_decide (x ∈ X) = false.
Proof. apply bool_decide_eq_false_2. Qed.

Lemma not_removed (x : str) (X : gset str) : x ∉ X ∖ {[x]}.
Proof. rewrite elem_of_difference, elem_of_singleton. tauto. Qed.

Lemma count_events_cons f e j :
  count_events f (e :: j) = ((if f e then 1 else 0) + count_events f j)%nat.
Proof. unfold count_events. simpl. destruct (f e); reflexivity. Qed.

Lemma progress_event_not_removal e :
  is_progress_event e = true -> is_removal e = false.
Proof. destruct e; simpl; congruence. Qed.

Lemma progress_event_not_task_deletion e :
  is_progress_event e = true -> is_task_deletion e = false.
Proof. destruct e; simpl; congruence. Qed.

Lemma progress_event_not_status_deletion e :
  is_progress_event e = true -> is_status_deletion e = false.
Proof. destruct e; simpl; congruence. Qed.

Lemma progress_event_not_store_event e :
  is_progress_event e = true -> is_store_event e = false.
Proof. destruct e; simpl; congruence. Qed.

Lemma progress_event_not_completion e :
  is_progress_event e = true -> is_completion e = false.
Proof.
  destruct e as [| c t | l | | | | | | | |]; simpl; try congruence.
  - destruct t; simpl; congruence.
  - destruct l; simpl; congruence.
Qed.

Lemma Forall_True {A} (l : list A) : Forall (fun _ => True) l.
Proof. induction l; constructor; auto. Qed.

(** Reduction of the states; the programs are run by the rules of the
    program logic. *)
Ltac wsimp :=
  cbn [fst snd user_tasks user_status disk objects journal tasks_created
       last_update_attr with_tasks with_status with_disk with_objects
       with_created with_last_update record resume await_effect ext_effect
       await_states negb andb orb is_cancelled
       st_filename st_file_path st_progress st_speed st_elapsed
       st_start_time].

(** Deciding a test on the state, or splitting on an answer of the
    environment: one step on the innermost term that blocks [b]. *)
Ltac settle b :=
  lazymatch b with
  | wake_at ?env ?l =>
      first [ match goal with H : wake_at env l = _ |- _ => rewrite H end
            | let E := fresh "Ewake" in destruct (wake_at env l) eqn:E ]
  | ext_at ?env ?l =>
      first [ match goal with H : ext_at env l = _ |- _ => rewrite H end
            | let E := fresh "Eext" in destruct (ext_at env l) eqn:E ]
  | partial_file ?env =>
      let E := fresh "Epartial" in destruct (partial_file env) eqn:E
  | human_size ?x =>
      let E := fresh "Ehs" in
      destruct (human_size x) eqn:E;
      [| let e' := fresh "e" in apply human_size_raises in E as [e' ->] ]
  | bool_decide (is_Some (Some _)) => change b with true
  | bool_decide (is_Some None) => change b with false
  | bool_decide (is_Some ?o) => settle o
  | str_eqb (path_join _ (sanitize_filename _ _ _)) [] =>
      rewrite staging_path_nonempty
  | str_eqb ?a ?c =>
      let E := fresh "Eempty" in destruct (str_eqb a c) eqn:E
  | bool_decide (?x ∈ {[?x]} ∪ _) => rewrite mem_added
  | bool_decide (?x ∈ _ ∖ {[?x]}) => rewrite mem_removed
  | bool_decide (_ ∈ disk (foldl _ _ _)) => rewrite ticks_disk
  | bool_decide (_ ∈ disk (cancel_reply _ _ _)) => rewrite cancel_reply_disk
  | bool_decide (_ ∈ disk (cancel_idle _ _ _)) => rewrite cancel_idle_disk
  | bool_decide (_ ∈ disk (if ?c then _ else _)) => settle c
  | bool_decide (_ ∈ disk (match ?c with _ => _ end)) => settle c
  | bool_decide (?x ∈ ?X) =>
      first [ rewrite (mem_absent x X) by assumption
            | match goal with H : bool_decide (x ∈ X) = _ |- _ => rewrite H end
            | let E := fresh "Ebound" in destruct (bool_decide (x ∈ X)) eqn:E ]
  | <[?k:=_]> _ !! ?k => rewrite lookup_insert_eq
  | delete ?k _ !! ?k => rewrite lookup_delete_eq
  | user_tasks (foldl _ _ _) !! _ => rewrite ticks_user_tasks
  | user_status (foldl _ _ _) !! _ => rewrite ticks_user_status
  | user_tasks (cancel_reply _ _ _) !! _ => rewrite cancel_reply_user_tasks
  | user_status (cancel_reply _ _ _) !! _ => rewrite cancel_reply_user_status
  | user_tasks (cancel_idle _ _ _) !! _ => rewrite cancel_idle_user_tasks
  | user_status (cancel_idle _ _ _) !! _ => rewrite cancel_idle_user_status
  | _ (if ?c then _ else _) !! _ => settle c
  | _ (match ?c with _ => _ end) !! _ => settle c
  | ?m !! ?k =>
      first [ match goal with H : m !! k = _ |- _ => rewrite H end
            | let E := fresh "Elookup" in destruct (m !! k) eqn:E ]
  | if ?c then _ else _ => settle c
  | match ?c with _ => _ end => settle c
  | negb ?c => settle c
  | andb ?c _ => settle c
  | ?e => is_var e; destruct e
  end.

Ltac settle_goal :=
  lazymatch goal with
  | |- holds _ _ _ _ _ _ (if ?b then _ else _) _ => settle b
  | |- holds _ _ _ _ _ _ (match ?x with _ => _ end) _ => settle x
  | |- match ?r with _ => _ end => settle r
  | |- if ?b then _ else _ => settle b
  end.

(** The [/cancel] of the owner, handled while the job is suspended: the
    tests made by [cancel_handler] are decided on the spot. *)
Ltac cancel_cases :=
  wsimp; cbv beta iota zeta;
  lazymatch goal with
  | |- context [match ?m !! ?k with Some _ => _ | None => _ end] =>
      settle (m !! k); cancel_cases
  | |- context [if negb (str_eqb ?a ?c) && ?d then _ else _] =>
      settle (negb (str_eqb a c) && d); cancel_cases
  | |- context [if bool_decide (?x ∈ ?X) then _ else _] =>
      settle (bool_decide (x ∈ X)); cancel_cases
  | _ => idtac
  end.

Ltac cancel_step :=
  lazymatch goal with
  | |- context [run_cancel ?G ?env ?m ?w] =>
      rewrite (run_cancel_cases G env m w); cancel_cases;
      unfold cancel_state; cancel_cases
  | _ => idtac
  end.

Ltac cancel_loop :=
  lazymatch goal with
  | |- context [run_cancel _ _ _ (if ?c then _ else _)] =>
      settle c; wsimp; cancel_loop
  | |- context [run_cancel _ _ _ _] => cancel_step
  | _ => idtac
  end.

Ltac split_wake env l := settle (wake_at env l); wsimp; cancel_loop.

(** One rule of the program logic, chosen by the head of the program;
    [tinv] proves the invariant at an await. *)
Ltac hstep tinv :=
  lazymatch goal with
  | H : forall e, Thrown _ <> Thrown e |- _ => exfalso; exact (H _ eq_refl)
  | H : forall e, wake_at ?env ?l <> Thrown e, E : wake_at ?env ?l = Thrown _
    |- _ => exfalso; exact (H _ E)
  | |- holds _ ?env _ _ _ _ ?p _ =>
      lazymatch p with
      | mbind _ _ => apply holds_bind
      | try_except _ _ => apply holds_try_except
      | try_finally _ _ => apply holds_try_finally
      | await ?l _ => apply holds_await; [wsimp; tinv | split_wake env l]
      | await_reply ?l _ =>
          apply holds_await_reply; [wsimp; tinv | split_wake env l]
      | await_task ?l _ _ =>
          apply holds_await_task; [wsimp; tinv | split_wake env l]
      | read _ => apply holds_read
      | write _ => apply holds_write
      | logger _ => apply holds_logger
      | time_time _ => apply holds_time_time
      | lift _ => apply holds_lift
      | load_global _ => apply holds_load_global
      | ext ?l _ => apply holds_ext; settle (ext_at env l)
      | create_task => apply holds_create_task
      | process_upload _ _ _ _ _ =>
          apply holds_process_upload; unfold process_upload_from
      | os_path_exists _ => apply holds_os_path_exists
      | os_remove _ => apply holds_os_remove
      | del_user_tasks _ => apply holds_del_user_tasks
      | del_user_status _ => apply holds_del_user_status
      | Ret _ => apply holds_Ret
      | Raise _ => apply holds_Raise
      | if _ then _ else _ => wsimp; settle_goal
      | match _ with _ => _ end => wsimp; settle_goal
      end
  | |- match _ with _ => _ end => wsimp; settle_goal
  | |- if _ then _ else _ => wsimp; settle_goal
  end.

Ltac run_job tinv :=
  cbv beta iota zeta; repeat (hstep tinv; cbv beta iota zeta).

(** *** The goals left at the end of a run *)

Lemma run_progress_bar_quiet G cb t w :
  last_update_attr w = None ->
  run_progress_bar G cb t w
  = record (Logged (LogProgressError
      (AttributeError "'method' object has no attribute 'last_update'"))) w.
Proof.
  intros H. destruct cb as [chat_id start_time operation].
  unfold run_progress_bar, exec_handler, progress_bar. cbn. now rewrite H.
Qed.

Lemma ticks_count_quiet f G cb ts w :
  last_update_attr w = None ->
  (forall l, f (Logged l) = false) ->
  count_events f (journal (foldl (fun w t => run_progress_bar G cb t w) w ts))
  = count_events f (journal w).
Proof.
  intros Hw Hf. revert w Hw.
  induction ts as [|t ts IH]; intros w Hw; simpl; [reflexivity |].
  rewrite run_progress_bar_quiet by assumption.
  rewrite IH by exact Hw.
  cbn [journal record]. rewrite count_events_cons, Hf. reflexivity.
Qed.

Ltac esimp :=
  cbn [fst snd user_tasks user_status disk objects journal tasks_created
       last_update_attr with_tasks with_status with_disk with_objects
       with_created with_last_update record
       is_removal is_task_deletion is_status_deletion is_store_event
       is_completion is_progress_update Nat.add negb andb orb].

Ltac count_norm :=
  repeat (esimp; first
    [ rewrite count_events_cons
    | rewrite ticks_count
        by first [ apply progress_event_not_removal
                 | apply progress_event_not_task_deletion
                 | apply progress_event_not_status_deletion
                 | apply progress_event_not_store_event
                 | apply progress_event_not_completion ]
    | rewrite ticks_count_quiet by (esimp; first [assumption | reflexivity])
    | rewrite cancel_reply_count by reflexivity
    | rewrite cancel_idle_count by reflexivity ]); esimp.

Ltac proj_norm :=
  repeat (esimp; first
    [ rewrite ticks_user_tasks | rewrite ticks_user_status
    | rewrite ticks_disk | rewrite ticks_objects
    | rewrite ticks_tasks_created
    | rewrite cancel_reply_user_tasks | rewrite cancel_reply_user_status
    | rewrite cancel_reply_disk | rewrite cancel_reply_objects
    | rewrite cancel_reply_tasks_created
    | rewrite cancel_idle_user_tasks | rewrite cancel_idle_user_status
    | rewrite cancel_idle_disk | rewrite cancel_idle_objects
    | rewrite cancel_idle_tasks_created ]); esimp.

Ltac lookup_done :=
  proj_norm;
  lazymatch goal with
  | |- None = None => reflexivity
  | |- Some _ = Some _ => reflexivity
  | |- ?m !! ?k = _ => first [ assumption | settle (m !! k); lookup_done ]
  end.

Ltac lookup_other :=
  proj_norm;
  repeat first [ rewrite lookup_delete_ne by congruence
               | rewrite lookup_insert_ne by congruence ];
  reflexivity.

Ltac absent_done :=
  proj_norm; first [ assumption | apply not_removed ].

Ltac clean_exit_done :=
  unfold clean_exit; esimp;
  split; [count_norm; reflexivity |];
  split; [count_norm; reflexivity |];
  split; [lookup_done |];
  split; [lookup_done | absent_done].

(** ** The job of an accepted submission *)

(** Line 325 names [s3_client]; the module binds no such name. *)
Lemma s3_client_unbound :
  bool_decide ("s3_client"%string ∈ module_globals) = false.
Proof. reflexivity. Qed.

Lemma in_flight_ok_step u task name l w w' :
  progress_step w w' ->
  in_flight_ok u task name (l, w) -> in_flight_ok u task name (l, w').
Proof.
  intros (Ht & Hs & _). unfold in_flight_ok. cbn [fst snd].
  now rewrite Ht, Hs.
Qed.

(** The invariant at an await of the job. *)
Ltac status_done :=
  proj_norm;
  lazymatch goal with
  | |- match ?m !! ?k with _ => _ end => settle (m !! k); status_done
  | |- True => exact I
  | |- _ /\ _ => repeat split; reflexivity
  end.

Ltac in_flight_now :=
  unfold in_flight_ok; cbn [fst snd]; split; [lookup_done | status_done].

Ltac in_flight_inv :=
  cbv beta;
  lazymatch goal with
  | |- Forall _ (after_ticks _ _ _ _) =>
      apply after_ticks_Forall;
      [ intros ? ?; apply in_flight_ok_step | cbv beta; in_flight_now ]
  | |- Forall _ [_] => constructor; [in_flight_now | constructor]
  | |- _ => in_flight_now
  end.

(** The answers met on the path, put into the facts that mention them. *)
Ltac env_norm :=
  repeat match goal with
         | H : wake_at ?env ?l = _ |- context [wake_at ?env ?l] => rewrite H
         | H : ext_at ?env ?l = _ |- context [ext_at ?env ?l] => rewrite H
         | H : partial_file ?env = _ |- context [partial_file ?env] =>
             rewrite H
         end.

Ltac job_outcome_done :=
  unfold job_outcome, unregistered, others_untouched;
  split;
  [ split; [split; lookup_done |];
    split; [intros ? ?; split; lookup_other | proj_norm; reflexivity] |];
  split;
  [ first [ left; reflexivity
          | right; eexists; split; [eassumption | reflexivity] ] |];
  split;
  [ intros ?; count_norm; reflexivity |];
  let Hfresh := fresh "Hfresh" in
  let H386 := fresh "H386" in
  intros Hfresh H386;
  lazymatch goal with
  | E : wake_at _ 386 = Thrown _ |- _ => exfalso; exact (H386 _ E)
  | E : bool_decide (?p ∈ ?X) = true |- _ =>
      exfalso; exact (Hfresh (bool_decide_eq_true_1 _ E))
  | |- _ =>
      clear H386; unfold file_staged, download_reached; env_norm;
      clean_exit_done
  end.


Section Job.

Variable uw : N -> bool.
Variable gt : str -> option str.
Variable config : Config.
Variable env : Env.
Variable m : Message.
Variable media : Media.

(** Every run of [file_handler] on an accepted submission, whatever the
    collaborators answer. *)
Lemma job_summary w :
  accepted config m media w ->
  user_status w !! from_user m = None ->
  holds module_globals env (run_progress_bar module_globals)
    (run_cancel module_globals env m)
    (in_flight_ok (from_user m) (tasks_created w) (job_file_name uw env media))
    (job_outcome env (from_user m) (job_file_path uw config env m media) w)
    (file_handler uw gt config m) w.
Proof.
  intros (Hm & Hsize & Ht) Hs.
  apply Z.ltb_ge in Hsize.
  pose proof s3_client_unbound as Hunb.
  rewrite job_file_path_eq.
  change (job_file_name uw env media)
    with (sanitize_filename uw (time_at env 107) (job_original_name env media)).
  unfold file_handler, file_staged, download_reached.
  rewrite Hm, Hsize.
  run_job in_flight_inv.
  all: job_outcome_done.
Qed.

(** X12: when [file_handler] is over, the owner has neither a registry
    entry nor a status record, on every path; the entries of the other
    owners are untouched, and exactly one task has been created. *)
Theorem job_unregisters w :
  accepted config m media w ->
  user_status w !! from_user m = None ->
  let w' := fst (exec module_globals env m (file_handler uw gt config m) w) in
  unregistered (from_user m) w'
  /\ others_untouched (from_user m) w w'
  /\ tasks_created w' = S (tasks_created w).
Proof.
  intros Ha Hs.
  apply (holds_exec _ _ _ _ _ _ _ (job_summary w Ha Hs)).
Qed.

(** X13: no exception of the job leaves [file_handler]: the handler returns,
    unless the reply of line 262 that reports the failure raises itself. *)
Theorem file_handler_result w :
  accepted config m media w ->
  user_status w !! from_user m = None ->
  let r := snd (exec module_globals env m (file_handler uw gt config m) w) in
  r = Returns tt
  \/ exists e, wake_at env 262 = Thrown e /\ r = Raises (Exc e).
Proof.
  intros Ha Hs.
  apply (holds_exec _ _ _ _ _ _ _ (job_summary w Ha Hs)).
Qed.

(** X14: while [progress_bar] has no attribute [last_update] (which is how
    the program starts, and nothing sets it), a job pushes no progress
    update at all, whatever the number of callbacks of the download. *)
Theorem job_pushes_no_progress w :
  accepted config m media w ->
  user_status w !! from_user m = None ->
  last_update_attr w = None ->
  let w' := fst (exec module_globals env m (file_handler uw gt config m) w) in
  count_events is_progress_update (journal w')
  = count_events is_progress_update (journal w).
Proof.
  intros Ha Hs.
  apply (holds_exec _ _ _ _ _ _ _ (job_summary w Ha Hs)).
Qed.





(** X19: the staging file is left behind when the error report of line 386
    raises: the clean-up of lines 389-390 is skipped, and the [finally]
    block of [file_handler] deletes the status record, the only place where
    the path is kept, without removing the file. *)
Theorem job_leaks_staging_file w v e :
  accepted config m media w ->
  user_status w !! from_user m = None ->
  ext_at env 285 = Answer v ->
  wake_at env 257 = Woken -> wake_at env 299 = Woken ->
  wake_at env 304 = Woken ->
  wake_at env 316 <> Cancelled ->
  wake_at env 386 = Thrown e ->
  wake_at env 262 <> Cancelled ->
  let w' := fst (exec module_globals env m (file_handler uw gt config m) w) in
  job_file_path uw config env m media ∈ disk w'
  /\ count_events is_removal (journal w')
     = count_events is_removal (journal w)
  /\ unregistered (from_user m) w'.
Proof.
  intros (Hm & Hsize & Ht) Hs H285 H257 H299 H304 H316 H386 H262.
  apply Z.ltb_ge in Hsize.
  pose proof s3_client_unbound as Hunb.
  rewrite job_file_path_eq. cbv zeta.
  match goal with |- ?p ∈ disk (fst ?x) /\ _ =>
    change ((fun (w' : World) (r : result unit) =>
               p ∈ disk w'
               /\ count_events is_removal (journal w')
                  = count_events is_removal (journal w)
               /\ unregistered (from_user m) w') (fst x) (snd x))
  end.
  apply (holds_exec _ _ _ (fun _ => True)).
  unfold file_handler. rewrite Hm, Hsize.
  run_job ltac:(apply Forall_True || exact I).
  all: try congruence.
  all: unfold unregistered;
    (split; [proj_norm; apply elem_of_union; left; now apply elem_of_singleton |]);
    (split; [count_norm; reflexivity |]); split; lookup_done.
Qed.

End Job.

(** The theorems of the section, at a submission of 1536 bytes sent to the
    bot as it starts. *)
Lemma a_submission_accepted :
  accepted unset_Config a_submission a_document boot.
Proof.
  split; [reflexivity |]. split; [vm_compute; discriminate | reflexivity].
Defined.

Lemma job_unregisters_witness :
  let w' := fst (exec module_globals calm a_submission
                   (file_handler ascii_only no_mime_type unset_Config
                      a_submission) boot) in
  unregistered 7 w' /\ others_untouched 7 boot w'
  /\ tasks_created w' = 1%nat.
Proof.
  apply (job_unregisters ascii_only no_mime_type unset_Config calm
           a_submission a_document boot a_submission_accepted).
  reflexivity.
Defined.

Lemma file_handler_result_witness :
  let r := snd (exec module_globals calm a_submission
                  (file_handler ascii_only no_mime_type unset_Config
                     a_submission) boot) in
  r = Returns tt \/ exists e, wake_at calm 262 = Thrown e /\ r = Raises (Exc e).
Proof.
  apply (file_handler_result ascii_only no_mime_type unset_Config calm
           a_submission a_document boot a_submission_accepted).
  reflexivity.
Defined.

Lemma job_pushes_no_progress_witness :
  count_events is_progress_update
    (journal (fst (exec module_globals calm a_submission
                     (file_handler ascii_only no_mime_type unset_Config
                        a_submission) boot)))
  = count_events is_progress_update (journal boot).
Proof.
  apply (job_pushes_no_progress ascii_only no_mime_type unset_Config calm
           a_submission a_document boot a_submission_accepted).
  - reflexivity.
  - reflexivity.
Defined.





Lemma job_leaks_staging_file_witness :
  job_file_path ascii_only unset_Config failing_report a_submission a_document
  ∈ disk (fst (exec module_globals failing_report a_submission
                 (file_handler ascii_only no_mime_type unset_Config
                    a_submission) boot)).
Proof.
  eapply (job_leaks_staging_file ascii_only no_mime_type unset_Config
           failing_report a_submission a_document boot
           (py "https://s3.example/object") RPCError a_submission_accepted);
    first [reflexivity | discriminate].
Defined.

(** X20: whatever the message, the state and the answers of the
    collaborators, [file_handler] writes nothing to the object store,
    issues no link and reports no completion. *)
Theorem file_handler_never_reaches_store uw gt config env m w :
  store_untouched w
    (fst (exec module_globals env m (file_handler uw gt config m) w)).
Proof.
  pose proof s3_client_unbound as Hunb.
  match goal with |- store_untouched ?w (fst ?x) =>
    change ((fun (w' : World) (r : result unit) => store_untouched w w')
              (fst x) (snd x))
  end.
  apply (holds_exec _ _ _ (fun _ => True)).
  unfold file_handler.
  destruct (media_of m) as [media|]; [| apply holds_Ret; repeat split].
  destruct (MAX_FILE_SIZE config <? file_size media).
  - run_job ltac:(apply Forall_True || exact I).
    all: unfold store_untouched;
      (split; [proj_norm; reflexivity |]); split; count_norm; reflexivity.
  - run_job ltac:(apply Forall_True || exact I).
    all: unfold store_untouched;
      (split; [proj_norm; reflexivity |]); split; count_norm; reflexivity.
Qed.

(** ** The command handlers and the rejections of [file_handler] *)

(** X21: [/cancel] from an owner who has no task registered only sends
    "No active upload to cancel": nothing else is changed. *)
Theorem cancel_handler_idle G env m w :
  user_tasks w !! from_user m = None ->
  exec_handler G env (cancel_handler m) w
  = replied env 209 (chat m) TxtNothingToCancel w.
Proof. intros H. now rewrite cancel_handler_run, H. Qed.

Lemma cancel_handler_idle_witness :
  exec_handler module_globals calm (cancel_handler a_submission) boot
  = replied calm 209 7 TxtNothingToCancel boot.
Proof.
  apply (cancel_handler_idle module_globals calm a_submission boot).
  reflexivity.
Defined.

Lemma cancel_state_user_tasks m task w :
  user_tasks (cancel_state m task w) = delete (from_user m) (user_tasks w).
Proof.
  unfold cancel_state.
  destruct (user_status w !! from_user m) as [st|];
    try destruct (negb _ && _); reflexivity.
Qed.







(** X23: [/cancel] is idempotent: whatever the first one found, a second
    one finds no task and only replies. *)
Theorem cancel_handler_twice G env1 env2 m w :
  let w1 := fst (exec_handler G env1 (cancel_handler m) w) in
  exec_handler G env2 (cancel_handler m) w1
  = replied env2 209 (chat m) TxtNothingToCancel w1.
Proof.
  cbv zeta. rewrite (cancel_handler_run G env2).
  assert (H : user_tasks (fst (exec_handler G env1 (cancel_handler m) w))
              !! from_user m = None).
  { rewrite cancel_handler_run.
    destruct (user_tasks w !! from_user m) as [task|] eqn:Ht; cbn [fst].
    - rewrite cancel_reply_user_tasks, cancel_state_user_tasks.
      apply lookup_delete_eq.
    - unfold replied. destruct (wake_at env1 209); exact Ht. }
  now rewrite H.
Qed.

(** X24: with the configuration that config.py builds, whatever the
    environment variables, a medium of more than 4 GiB is rejected with
    "File size exceeds 4.0 GB limit": no task is created and nothing but
    the reply is done. *)
Theorem file_handler_too_large int_of_str getenv G env uw gt config m media w :
  load_Config int_of_str getenv = Returns config ->
  media_of m = Some media ->
  MAX_FILE_SIZE config < file_size media ->
  exec_handler G env (file_handler uw gt config m) w
  = replied env 237 (chat m) (TxtTooLarge (py "4.0 GB")) w.
Proof.
  intros Hc Hm Hsize.
  assert (Hmax : MAX_FILE_SIZE config = 4 * 1024 * 1024 * 1024).
  { unfold load_Config in Hc.
    destruct (match getenv "API_ID"%string with
              | Some s => int_of_str s
              | None => Some 0
              end); [| discriminate].
    injection Hc as <-. reflexivity. }
  apply Z.ltb_lt in Hsize.
  unfold exec_handler, file_handler, replied. rewrite Hm, Hsize, Hmax.
  change (human_size (inject_Z (4 * 1024 * 1024 * 1024)))
    with (Returns (A:=str) (py "4.0 GB")).
  cbn. destruct (wake_at env 237); reflexivity.
Qed.

Lemma file_handler_too_large_witness :
  exec_handler module_globals calm
    (file_handler ascii_only no_mime_type unset_Config a_large_submission) boot
  = replied calm 237 7 (TxtTooLarge (py "4.0 GB")) boot.
Proof.
  apply (file_handler_too_large (fun _ => None) (fun _ => None) module_globals
           calm ascii_only no_mime_type unset_Config a_large_submission
           a_large_document boot).
  - reflexivity.
  - reflexivity.
  - reflexivity.
Defined.

(** X25: a submission of an owner who has a task registered is answered
    "already in progress": no task is created and nothing but the reply is
    done. *)
Theorem file_handler_already_active G env uw gt config m media task w :
  media_of m = Some media ->
  file_size media <= MAX_FILE_SIZE config ->
  user_tasks w !! from_user m = Some task ->
  exec_handler G env (file_handler uw gt config m) w
  = replied env 244 (chat m) TxtAlreadyActive w.
Proof.
  intros Hm Hsize Ht. apply Z.ltb_ge in Hsize.
  unfold exec_handler, file_handler, replied. rewrite Hm, Hsize.
  cbn. rewrite Ht. cbn. destruct (wake_at env 244); reflexivity.
Qed.

Lemma file_handler_already_active_witness :
  exec_handler module_globals calm
    (file_handler ascii_only no_mime_type unset_Config a_submission)
    (with_tasks (insert 7 0%nat) boot)
  = replied calm 244 7 TxtAlreadyActive (with_tasks (insert 7 0%nat) boot).
Proof.
  apply (file_handler_already_active module_globals calm ascii_only
           no_mime_type unset_Config a_submission a_document 0%nat
           (with_tasks (insert 7 0%nat) boot)).
  - reflexivity.
  - vm_compute. discriminate.
  - reflexivity.
Defined.
